(** * GenerateODPairs: the batch driver of the OD-pair generator

    A shallow embedding of [RawData/GenerateODPairs.cpp].  The translation
    unit consists of [printUsage], [printErrorMessage] and [main]; everything
    else it touches lives in headers that are not part of the unit
    ([CommandLineParser], [ProgressBar], [StaticGraph], [ODPairGenerator]) or
    in the C++ standard library ([std::default_random_engine],
    [std::geometric_distribution], the file streams).  Those collaborators are
    taken as the fields of one interface, [Collaborators]; [main] is modelled
    over an arbitrary implementation of it.

    Conventions:
    - [int] is a 32-bit two's complement integer carried in [Z];
    - the three streams ([std::cout], [std::cerr], the [std::ofstream]) are
      strings that grow by appending, [std::endl] is a line feed;
    - a C++ exception is a [Fail] result; only [std::invalid_argument] is
      caught by [main], anything else ends the process abnormally;
    - every invocation of the sampler is recorded in the process state with
      its argument and its reply. *)

From Stdlib Require Import ZArith QArith String Ascii List Bool Lia.
From Stdlib Require Import DecimalString DecimalZ.
Import ListNotations.

Local Open Scope string_scope.
Local Open Scope Z_scope.

(** ** Machine integers *)

Module Int.


(** Reduction of a mathematical integer to the value an [int] holds. *)
Definition wrap (z : Z) : Z := (z + 2 ^ 31) mod 2 ^ 32 - 2 ^ 31.

(** [a << k] on [int].  The shift is defined for [0 <= k < 32] only (the
    result is the wrapped product); any other shift count is undefined
    behaviour, rendered as [None]. *)
Definition shl (a k : Z) : option Z :=
  if (0 <=? k) && (k <? 32) then Some (wrap (Z.shiftl a k)) else None.

(** [operator<<(std::ostream&, int)]: decimal digits, a leading minus sign
    for negative values. *)
Definition show (z : Z) : string := NilEmpty.string_of_int (Z.to_int z).

End Int.

(** ** Text *)

Definition endl : string := String (ascii_of_nat 10) EmptyString.

(** ** Results of fallible calls *)

Inductive failure : Type :=
| invalid_argument (what : string)   (* std::invalid_argument, with e.what() *)
| other_exception                    (* any other exception type *)
| undefined_behaviour.               (* no defined result at all *)

Inductive res (A : Type) : Type :=
| Val (a : A)
| Fail (f : failure).
Arguments Val {A} a.
Arguments Fail {A} f.

(** ** Data exchanged with the sampler *)

Record OriginDestination : Type := { origin : Z; destination : Z }.

Inductive Request : Type :=
| Uniform                       (* gen.getRandomODPair() *)
| ByDistance (dist : Z)         (* gen.getRandomODPairChosenByDistance(dist) *)
| ByDijkstraRank (rank : Z).    (* gen.getRandomODPairChosenByDijkstraRank(rank) *)

(** One invocation of the sampler: what was asked, and the pair returned
    ([None] when the call raised instead of returning). *)
Record Call : Type := { request : Request; reply : option OriginDestination }.

(** ** The collaborators of [main] *)

Class Collaborators : Type := {
  (* Tools/CommandLine/CommandLineParser.h *)
  CommandLineParser : Type;
  clp_parse : list string -> res CommandLineParser;        (* clp.parse(argc, argv), argv[1..] *)
  isSet : CommandLineParser -> string -> bool;
  getValue_int : CommandLineParser -> string -> option Z -> res Z;
                                                           (* getValue<int>(name [, default]) *)
  getValue_string : CommandLineParser -> string -> res string;
  getValues_int : CommandLineParser -> string -> res (list Z);
  (* Tools/CommandLine/ProgressBar.h: each operation returns the text it prints *)
  ProgressBar : Type;
  bar_new : ProgressBar;
  setPercentageOutputInterval : ProgressBar -> Z -> ProgressBar;
  bar_init : ProgressBar -> Z -> ProgressBar * string;
  bar_incr : ProgressBar -> ProgressBar * string;
  (* DataStructures/Graph/Graph.h *)
  Graph : Type;
  Graph_read : string -> res Graph;                        (* Graph graph(in), from the bytes of [in] *)
  graph_edges : Graph -> list Z;                           (* FORALL_EDGES(graph, e) *)
  graph_length : Graph -> Z -> Z;
  graph_set_travelTime : Graph -> Z -> Z -> Graph;
  (* <random> *)
  RandomEngine : Type;
  default_random_engine : Z -> RandomEngine;
  geometric_distribution : Q -> RandomEngine -> Z * RandomEngine;
  (* Experiments/ODPairGenerator.h; the generator is built from the graph and
     the engine, and each call sees the current graph and engine *)
  ODPairGenerator : Type;
  gen_new : Graph -> RandomEngine -> ODPairGenerator;
  getRandomODPair :
    Graph -> ODPairGenerator -> RandomEngine ->
    res (OriginDestination * ODPairGenerator * RandomEngine);
  getRandomODPairChosenByDistance :
    Z -> Graph -> ODPairGenerator -> RandomEngine ->
    res (OriginDestination * ODPairGenerator * RandomEngine);
  getRandomODPairChosenByDijkstraRank :
    Z -> Graph -> ODPairGenerator -> RandomEngine ->
    res (OriginDestination * ODPairGenerator * RandomEngine);
}.

(** The part of the file system [main] can observe: the bytes behind a path
    that opens for reading ([None] when [in.good()] is false), and whether a
    path opens for writing. *)
Record FileSystem : Type := {
  ifstream : string -> option string;
  ofstream_good : string -> bool;
}.

(** ** Process state and the monad of [main] *)

Record Process : Type := {
  cout : string;
  cerr : string;
  out : option (string * string);   (* path of the opened std::ofstream, text sent to it *)
  calls : list Call;
}.

Definition start : Process :=
  {| cout := EmptyString; cerr := EmptyString; out := None; calls := [] |}.

Definition M (A : Type) : Type := Process -> res A * Process.

Definition ret {A} (a : A) : M A := fun p => (Val a, p).

Definition bind {A B} (c : M A) (k : A -> M B) : M B :=
  fun p => match c p with
           | (Val a, p') => k a p'
           | (Fail f, p') => (Fail f, p')
           end.

Definition lift {A} (r : res A) : M A := fun p => (r, p).

Definition throw {A} (f : failure) : M A := fun p => (Fail f, p).

Declare Scope proc_scope.
Delimit Scope proc_scope with proc.
Notation "x <- c ;; k" := (bind c (fun x => k))
  (at level 100, c at next level, right associativity) : proc_scope.
Notation "' pat <- c ;; k" := (bind c (fun x => match x with pat => k end))
  (at level 100, pat pattern, c at next level, right associativity) : proc_scope.
Notation "c ;; k" := (bind c (fun _ => k))
  (at level 100, right associativity) : proc_scope.
Local Open Scope proc_scope.

Definition cout_put (s : string) : M unit :=
  fun p => (Val tt, {| cout := cout p ++ s; cerr := cerr p; out := out p; calls := calls p |}).

Definition cerr_put (s : string) : M unit :=
  fun p => (Val tt, {| cout := cout p; cerr := cerr p ++ s; out := out p; calls := calls p |}).

(** Appending to the output stream, when it is open.  The text sent to the
    stream is in the file once the stream is flushed: at every [std::endl],
    and when the stream is closed or destroyed, which is the case on every
    path on which [main] returns (the stream lives inside the second [try]
    block, so a caught exception unwinds through it).  Statements about the
    whole text of the file are therefore made for runs in which [main]
    returns. *)
Definition out_append (o : option (string * string)) (s : string) : option (string * string) :=
  match o with
  | Some (path, text) => Some (path, text ++ s)
  | None => None
  end.

Definition out_put (s : string) : M unit :=
  fun p => (Val tt,
            {| cout := cout p; cerr := cerr p; out := out_append (out p) s; calls := calls p |}).

Definition log_call (c : Call) : M unit :=
  fun p => (Val tt, {| cout := cout p; cerr := cerr p; out := out p;
                       calls := (calls p ++ [c])%list |}).

(** [try { body } catch (std::invalid_argument& e) { handler(e.what()) }] *)
Definition catch {A} (body : M A) (handler : string -> M A) : M A :=
  fun p => match body p with
           | (Fail (invalid_argument what), p') => handler what p'
           | r => r
           end.

(** ** The translation unit *)

Definition EXIT_SUCCESS : Z := 0.
Definition EXIT_FAILURE : Z := 1.

Definition usage : string :=
  "Usage: GenerateODPairs -n <num> [-s <seed>] -i <file> -o <file>" ++ endl ++
  "       GenerateODPairs -n <num> [-s <seed>] -i <file> -o <file> -r <ranks>" ++ endl ++
  "       GenerateODPairs -n <num> [-s <seed>] -i <file> -o <file> -d <dist> [-geo]" ++ endl ++
  "This program generates OD-pairs, with the origin chosen uniformly at random." ++ endl ++
  "The destination is also picked uniformly at random, or chosen by distance or" ++ endl ++
  "Dijkstra rank. Dijkstra ranks are specified in terms of powers of two." ++ endl ++
  "  -n <num>          the number of OD-pairs to be generated (per Dijkstra rank)" ++ endl ++
  "  -s <seed>         the seed for the random number generator" ++ endl ++
  "  -len              use physical length as cost function (default: travel time)" ++ endl ++
  "  -r <ranks>        a space-separated list of Dijkstra ranks" ++ endl ++
  "  -d <dist>         (expected) distance between a pair's origin and destination" ++ endl ++
  "  -geo              geometrically distributed distances with expected value -d" ++ endl ++
  "  -i <file>         the input graph in binary format" ++ endl ++
  "  -o <file>         the output file" ++ endl ++
  "  -help             display this help and exit" ++ endl.

Definition printUsage : M unit := cout_put usage.

Definition error_text (invokedName msg : string) : string :=
  invokedName ++ ": " ++ msg ++ endl ++
  "Try '" ++ invokedName ++ " -help' for more information." ++ endl.

Definition printErrorMessage (invokedName msg : string) : M unit :=
  cerr_put (invokedName ++ ": " ++ msg ++ endl) ;;
  cerr_put ("Try '" ++ invokedName ++ " -help' for more information." ++ endl).

(** The parameter handed to [std::geometric_distribution<> dist(1.0 / distance)].
    The [double] quotient is carried as the exact rational. *)
Definition success_probability (distance : Z) : Q := 1 / inject_Z distance.

Definition cost_function_name (len : bool) : string :=
  if len then "physical lengths" else "travel times".

Section Driver.

Context {ext : Collaborators}.
Variable fs : FileSystem.

(** The three sampler entry points, by request. *)
Definition invoke (req : Request) (graph : Graph) (gen : ODPairGenerator) (rand : RandomEngine)
  : res (OriginDestination * ODPairGenerator * RandomEngine) :=
  match req with
  | Uniform => getRandomODPair graph gen rand
  | ByDistance d => getRandomODPairChosenByDistance d graph gen rand
  | ByDijkstraRank r => getRandomODPairChosenByDijkstraRank r graph gen rand
  end.

(** A sampler call, recorded in [calls] whether it returns or raises. *)
Definition sample (req : Request) (graph : Graph) (gen : ODPairGenerator) (rand : RandomEngine)
  : M (OriginDestination * ODPairGenerator * RandomEngine) :=
  match invoke req graph gen rand with
  | Val (od, gen', rand') =>
      log_call {| request := req; reply := Some od |} ;; ret (od, gen', rand')
  | Fail f =>
      log_call {| request := req; reply := None |} ;; throw f
  end.

(** [FORALL_EDGES(graph, e) graph.travelTime(e) = graph.length(e);] *)
Definition use_lengths (graph : Graph) : Graph :=
  fold_left (fun g e => graph_set_travelTime g e (graph_length g e)) (graph_edges graph) graph.

(** [std::ofstream out(path); if (!out.good()) throw ...] *)
Definition open_out (path : string) : M unit :=
  fun p =>
    if ofstream_good fs path
    then (Val tt, {| cout := cout p; cerr := cerr p;
                     out := Some (path, EmptyString); calls := calls p |})
    else (Fail (invalid_argument ("file cannot be opened -- '" ++ path ++ "'")), p).

Definition init_bar (bar : ProgressBar) (n : Z) : M ProgressBar :=
  let '(bar', text) := bar_init bar n in cout_put text ;; ret bar'.

Definition incr_bar (bar : ProgressBar) : M ProgressBar :=
  let '(bar', text) := bar_incr bar in cout_put text ;; ret bar'.

(** [1 << rank] *)
Definition shift_one (rank : Z) : M Z :=
  match Int.shl 1 rank with
  | Some r => ret r
  | None => throw undefined_behaviour
  end.

(** The inner loop of the Dijkstra-rank branch: [n] iterations left. *)
Fixpoint rank_pairs (n : nat) (rank : Z) (graph : Graph)
    (gen : ODPairGenerator) (rand : RandomEngine) (bar : ProgressBar)
  : M (ODPairGenerator * RandomEngine * ProgressBar) :=
  match n with
  | O => ret (gen, rand, bar)
  | S n' =>
      r <- shift_one rank ;;
      '(od, gen, rand) <- sample (ByDijkstraRank r) graph gen rand ;;
      out_put (Int.show (origin od) ++ "," ++ Int.show (destination od) ++ ","
               ++ Int.show r ++ endl) ;;
      bar <- incr_bar bar ;;
      rank_pairs n' rank graph gen rand bar
  end.

(** The outer loop of the Dijkstra-rank branch, over the values of [-r]. *)
Fixpoint rank_batches (ranks : list Z) (numPairs : Z) (graph : Graph)
    (gen : ODPairGenerator) (rand : RandomEngine) (bar : ProgressBar)
  : M unit :=
  match ranks with
  | [] => ret tt
  | rank :: ranks' =>
      cout_put ("Generating " ++ Int.show numPairs ++ " OD-pairs (2^" ++ Int.show rank ++ "): ") ;;
      bar <- init_bar bar numPairs ;;
      '(gen, rand, bar) <- rank_pairs (Z.to_nat numPairs) rank graph gen rand bar ;;
      cout_put ("done." ++ endl) ;;
      rank_batches ranks' numPairs graph gen rand bar
  end.

(** The loop of the distance branch. *)
Fixpoint distance_pairs (n : nat) (isGeo : bool) (distance : Z) (graph : Graph)
    (gen : ODPairGenerator) (rand : RandomEngine) (bar : ProgressBar)
  : M unit :=
  match n with
  | O => ret tt
  | S n' =>
      let '(actualDistance, rand) :=
        if isGeo then geometric_distribution (success_probability distance) rand
        else (distance, rand) in
      '(od, gen, rand) <- sample (ByDistance actualDistance) graph gen rand ;;
      out_put (Int.show (origin od) ++ "," ++ Int.show (destination od) ++ endl) ;;
      bar <- incr_bar bar ;;
      distance_pairs n' isGeo distance graph gen rand bar
  end.

(** The loop of the uniform branch. *)
Fixpoint uniform_pairs (n : nat) (graph : Graph)
    (gen : ODPairGenerator) (rand : RandomEngine) (bar : ProgressBar)
  : M unit :=
  match n with
  | O => ret tt
  | S n' =>
      '(od, gen, rand) <- sample Uniform graph gen rand ;;
      out_put (Int.show (origin od) ++ "," ++ Int.show (destination od) ++ endl) ;;
      bar <- incr_bar bar ;;
      uniform_pairs n' graph gen rand bar
  end.

Definition by_rank (clp : CommandLineParser) (numPairs : Z) (graph : Graph)
    (gen : ODPairGenerator) (rand : RandomEngine) (bar : ProgressBar) : M unit :=
  out_put ("Dijkstra rank" ++ endl) ;;
  out_put ("origin,destination,dijkstra_rank" ++ endl) ;;
  cout_put ("The destinations are chosen by Dijkstra rank." ++ endl) ;;
  cout_put "Cost function: " ;;
  cout_put (cost_function_name (isSet clp "len") ++ endl) ;;
  ranks <- lift (getValues_int clp "r") ;;
  rank_batches ranks numPairs graph gen rand bar.

Definition by_distance (clp : CommandLineParser) (numPairs : Z) (graph : Graph)
    (gen : ODPairGenerator) (rand : RandomEngine) (bar : ProgressBar) : M unit :=
  distance <- lift (getValue_int clp "d" None) ;;
  let isGeo := isSet clp "geo" in
  out_put (if isGeo then "geometrically distributed" else "equidistant") ;;
  out_put (" (" ++ Int.show distance ++ ")" ++ endl) ;;
  out_put ("origin,destination,dijkstra_rank" ++ endl) ;;
  (if isGeo
   then cout_put ("The origin-destination distance is geometrically distributed." ++ endl) ;;
        cout_put ("Expected distance: " ++ Int.show distance ++ endl)
   else cout_put ("The origin-destination distance is " ++ Int.show distance ++ "." ++ endl)) ;;
  cout_put "Cost function: " ;;
  cout_put (cost_function_name (isSet clp "len") ++ endl) ;;
  cout_put ("Generating " ++ Int.show numPairs ++ " OD-pairs: ") ;;
  bar <- init_bar bar numPairs ;;
  distance_pairs (Z.to_nat numPairs) isGeo distance graph gen rand bar ;;
  cout_put ("done." ++ endl).

Definition uniformly (numPairs : Z) (graph : Graph)
    (gen : ODPairGenerator) (rand : RandomEngine) (bar : ProgressBar) : M unit :=
  out_put ("random" ++ endl) ;;
  out_put ("origin,destination,dijkstra_rank" ++ endl) ;;
  cout_put ("Generating " ++ Int.show numPairs ++ " OD-pairs: ") ;;
  bar <- init_bar bar numPairs ;;
  uniform_pairs (Z.to_nat numPairs) graph gen rand bar ;;
  cout_put ("done." ++ endl).

(** [std::ifstream in(infile, std::ios::binary); if (!in.good()) throw ...] *)
Definition open_in (infile : string) : M string :=
  match ifstream fs infile with
  | Some bytes => ret bytes
  | None => throw (invalid_argument ("file not found -- '" ++ infile ++ "'"))
  end.

(** The second [try] block of [main] once the engine exists (lines 62-146). *)
Definition generate_with (rand : RandomEngine) (clp : CommandLineParser) (numPairs : Z)
    (infile outfile : string) : M unit :=
  bytes <- open_in infile ;;
  cout_put "Reading the input graph..." ;;
  graph <- lift (Graph_read bytes) ;;
  cout_put (" done." ++ endl) ;;
  let gen := gen_new graph rand in
  let graph := if isSet clp "len" then use_lengths graph else graph in
  open_out (outfile ++ ".csv") ;;
  out_put ("# Input graph: " ++ infile ++ endl) ;;
  out_put "# Methodology: " ;;
  let bar := setPercentageOutputInterval bar_new 25 in
  if isSet clp "r" then by_rank clp numPairs graph gen rand bar
  else if isSet clp "d" then by_distance clp numPairs graph gen rand bar
  else uniformly numPairs graph gen rand bar.

(** The body of the second [try] block of [main] (lines 61-146). *)
Definition generate (clp : CommandLineParser) (numPairs : Z) (infile outfile : string) : M unit :=
  seed <- lift (getValue_int clp "s" (Some 19900325)) ;;
  generate_with (default_random_engine seed) clp numPairs infile outfile.

Definition main (argv0 : string) (args : list string) : M Z :=
  parsed <- catch (clp <- lift (clp_parse args) ;; ret (Some clp))
                  (fun what => printErrorMessage argv0 what ;; ret None) ;;
  match parsed with
  | None => ret EXIT_FAILURE
  | Some clp =>
      if isSet clp "help" then printUsage ;; ret EXIT_SUCCESS
      else
        numPairs <- lift (getValue_int clp "n" None) ;;
        infile <- lift (getValue_string clp "i") ;;
        outfile <- lift (getValue_string clp "o") ;;
        catch (generate clp numPairs infile outfile ;; ret EXIT_SUCCESS)
              (fun what => printErrorMessage argv0 what ;; ret EXIT_FAILURE)
  end.

(** A whole run of the program, from a fresh process. *)
Definition run (argv0 : string) (args : list string) : res Z * Process :=
  main argv0 args start.

End Driver.

(** ** A small implementation of the collaborators

    Used to run [main] on concrete command lines. *)

Module Sample.

Definition table : Type := list (string * list string).

Definition step (a : string) (st : list string * table) : list string * table :=
  match a with
  | String "-" name => ([], (name, fst st) :: snd st)
  | _ => (a :: fst st, snd st)
  end.

Definition parse (args : list string) : res table :=
  match fold_right step ([], []) args with
  | ([], t) => Val t
  | (v :: _, _) => Fail (invalid_argument ("'" ++ v ++ "' is not an option"))
  end.

Definition values (t : table) (name : string) : option (list string) :=
  option_map snd (find (fun e => String.eqb (fst e) name) t).

Definition cast (v : string) : res Z :=
  match NilEmpty.int_of_string v with
  | Some i => Val (Z.of_int i)
  | None => Fail (invalid_argument ("'" ++ v ++ "' is not an integer"))
  end.

Fixpoint casts (vs : list string) : res (list Z) :=
  match vs with
  | [] => Val []
  | v :: vs' =>
      match cast v, casts vs' with
      | Val z, Val zs => Val (z :: zs)
      | Fail f, _ => Fail f
      | _, Fail f => Fail f
      end
  end.

Definition next (s : Z) : Z := (s * 16807) mod 2147483647.

Definition vertices : Z := 5.

Definition impl : Collaborators := {|
  CommandLineParser := table;
  clp_parse := parse;
  isSet := fun t name => match values t name with Some _ => true | None => false end;
  getValue_int := fun t name default =>
    match values t name with
    | Some (v :: _) => cast v
    | _ => Val (match default with Some d => d | None => 0 end)
    end;
  getValue_string := fun t name =>
    match values t name with
    | Some (v :: _) => Val v
    | _ => Val EmptyString
    end;
  getValues_int := fun t name =>
    match values t name with
    | Some vs => casts vs
    | None => Val []
    end;
  ProgressBar := unit;
  bar_new := tt;
  setPercentageOutputInterval := fun b _ => b;
  bar_init := fun b _ => (b, EmptyString);
  bar_incr := fun b => (b, ".");
  Graph := string;
  Graph_read := fun bytes => Val bytes;
  graph_edges := fun _ => [];
  graph_length := fun _ _ => 0;
  graph_set_travelTime := fun g _ _ => g;
  RandomEngine := Z;
  default_random_engine := fun seed => seed;
  geometric_distribution := fun _ s => (next s mod 4, next s);
  ODPairGenerator := unit;
  gen_new := fun _ _ => tt;
  getRandomODPair := fun _ g s =>
    Val ({| origin := next s mod vertices; destination := next (next s) mod vertices |},
         g, next (next s));
  getRandomODPairChosenByDistance := fun d _ g s =>
    Val ({| origin := next s mod vertices; destination := (next s + d) mod vertices |},
         g, next s);
  getRandomODPairChosenByDijkstraRank := fun r _ g s =>
    Val ({| origin := next s mod vertices; destination := (next s + r - 1) mod vertices |},
         g, next s);
|}.

(** A file system holding one readable graph file; every path but those
    under [/proc] opens for writing. *)
Definition disk : FileSystem := {|
  ifstream := fun path => if String.eqb path "graph.bin" then Some "bytes" else None;
  ofstream_good := fun path => negb (String.prefix "/proc" path);
|}.

(** The table behind a command line that parses. *)
Definition parsed (args : list string) : table :=
  match parse args with
  | Val t => t
  | Fail _ => []
  end.

Definition name : string := "GenerateODPairs".

Definition uniform_args : list string :=
  ["-n"; "2"; "-i"; "graph.bin"; "-o"; "pairs"].


Definition equidistant_args : list string :=
  ["-n"; "2"; "-i"; "graph.bin"; "-o"; "pairs"; "-d"; "3"].

Definition geometric_args : list string :=
  ["-n"; "2"; "-i"; "graph.bin"; "-o"; "pairs"; "-d"; "2"; "-geo"].

Definition rank_args : list string :=
  ["-n"; "2"; "-i"; "graph.bin"; "-o"; "pairs"; "-r"; "1"; "3"].


Definition unwritable_args : list string :=
  ["-n"; "1"; "-i"; "graph.bin"; "-o"; "/proc/pairs"].

Definition countless_args : list string :=
  ["-i"; "graph.bin"; "-o"; "pairs"].

Definition garbled_args : list string :=
  ["-n"; "2"; "-i"; "graph.bin"; "-o"; "pairs"; "-d"; "x2"].

(** A run of the sample implementation on the sample disk. *)
Definition go (args : list string) : res Z * Process :=
  run (ext := impl) disk name args.


End Sample.


(** ** Vocabulary of the statements *)

(** The line a returned call leaves in the output file: two fields, and the
    requested rank as a third field for a call by Dijkstra rank (the [out <<]
    statements of the three loops). *)
Definition row (c : Call) : string :=
  match reply c with
  | None => EmptyString
  | Some od =>
      match request c with
      | ByDijkstraRank r =>
          Int.show (origin od) ++ "," ++ Int.show (destination od) ++ "," ++ Int.show r ++ endl
      | _ => Int.show (origin od) ++ "," ++ Int.show (destination od) ++ endl
      end
  end.

Fixpoint rows (cs : list Call) : string :=
  match cs with
  | [] => EmptyString
  | c :: cs' => row c ++ rows cs'
  end.

Definition replied (c : Call) : Prop := reply c <> None.

Inductive Mode : Type := RankTargeted | DistanceTargeted | UniformMode.

Definition mode_of (q : Request) : Mode :=
  match q with
  | Uniform => UniformMode
  | ByDistance _ => DistanceTargeted
  | ByDijkstraRank _ => RankTargeted
  end.

(** The two comment lines and the column line that open the output file. *)
Definition header (infile methodology : string) : string :=
  "# Input graph: " ++ infile ++ endl ++
  "# Methodology: " ++ methodology ++ endl ++
  "origin,destination,dijkstra_rank" ++ endl.

Definition distance_methodology (isGeo : bool) (distance : Z) : string :=
  (if isGeo then "geometrically distributed" else "equidistant") ++
  " (" ++ Int.show distance ++ ")".

(** What a loop does to the process: [cerr] is untouched, [new] calls are
    recorded, and the output file grows by their rows. *)
Definition grows (P : Call -> Prop) (p p' : Process) (new : list Call) : Prop :=
  cerr p' = cerr p /\
  calls p' = (calls p ++ new)%list /\
  out p' = out_append (out p) (rows new) /\
  Forall P new.

(** The same with an arbitrary text [s] appended to the output file. *)
Definition extends (P : Call -> Prop) (p p' : Process) (new : list Call) (s : string) : Prop :=
  cerr p' = cerr p /\
  calls p' = (calls p ++ new)%list /\
  out p' = out_append (out p) s /\
  Forall P new.

(** The request of a call of the Dijkstra-rank branch for the list entry
    [rank]: the value of [1 << rank]. *)
Definition rank_request (rank : Z) (c : Call) : Prop :=
  exists r, Int.shl 1 rank = Some r /\ request c = ByDijkstraRank r.

(** The requests of a whole Dijkstra-rank branch that ran to its end. *)
Definition rank_requests (ranks : list Z) (n : nat) : list Request :=
  flat_map (fun rank => repeat (ByDijkstraRank (Int.wrap (Z.shiftl 1 rank))) n) ranks.

(** ** The geometric distribution

    [std::geometric_distribution<int>] with parameter [p] yields the value
    [i >= 0] with probability [p (1 - p)^i]. *)

Fixpoint Qpow (q : Q) (n : nat) : Q :=
  match n with
  | O => 1
  | S n' => q * Qpow q n'
  end.

Definition geometric_pmf (p : Q) (i : nat) : Q := p * Qpow (1 - p) i.

(** The partial sum [0 pmf(0) + 1 pmf(1) + ... + n pmf(n)] of the mean. *)
Fixpoint mean_upto (pmf : nat -> Q) (n : nat) : Q :=
  match n with
  | O => 0
  | S n' => mean_upto pmf n' + inject_Z (Z.of_nat n) * pmf n
  end.

Section Statements.

Context {ext : Collaborators}.
Variable fs : FileSystem.

(** The branch [main] takes at lines 86, 104 and 132. *)
Definition selected_mode (clp : CommandLineParser) : Mode :=
  if isSet clp "r" then RankTargeted
  else if isSet clp "d" then DistanceTargeted
  else UniformMode.

(** The request of a call of the distance branch: the configured distance,
    or a draw of the geometric distribution when [isGeo] holds. *)
Definition distance_request (isGeo : bool) (distance : Z) (c : Call) : Prop :=
  if isGeo
  then exists rand, request c =
         ByDistance (fst (geometric_distribution (success_probability distance) rand))
  else request c = ByDistance distance.

(** What the branch selected by the command line asks of the sampler. *)
Definition mode_request (clp : CommandLineParser) (c : Call) : Prop :=
  match selected_mode clp with
  | RankTargeted =>
      exists ranks rank,
        getValues_int clp "r" = Val ranks /\ In rank ranks /\ rank_request rank c
  | DistanceTargeted =>
      exists distance,
        getValue_int clp "d" None = Val distance /\
        distance_request (isSet clp "geo") distance c
  | UniformMode => request c = Uniform
  end.

(** What a branch that ran to its end has done: the calls it made, and the
    methodology it announced in the second line of the file. *)
Definition mode_complete (clp : CommandLineParser) (numPairs : Z)
    (new : list Call) (methodology : string) : Prop :=
  match selected_mode clp with
  | RankTargeted =>
      exists ranks,
        getValues_int clp "r" = Val ranks /\
        map request new = rank_requests ranks (Z.to_nat numPairs) /\
        methodology = "Dijkstra rank"
  | DistanceTargeted =>
      exists distance,
        getValue_int clp "d" None = Val distance /\
        length new = Z.to_nat numPairs /\
        methodology = distance_methodology (isSet clp "geo") distance
  | UniformMode => length new = Z.to_nat numPairs /\ methodology = "random"
  end.

Definition columns : string := "origin,destination,dijkstra_rank" ++ endl.

(** The command line parses, does not ask for help, and the three lookups
    ahead of the guarded block return. *)
Definition configured (args : list string) (clp : CommandLineParser)
    (numPairs : Z) (infile outfile : string) : Prop :=
  clp_parse args = Val clp /\
  isSet clp "help" = false /\
  getValue_int clp "n" None = Val numPairs /\
  getValue_string clp "i" = Val infile /\
  getValue_string clp "o" = Val outfile.

(** The seed lookup returns, the input opens and the graph is built. *)
Definition loaded (clp : CommandLineParser) (infile : string)
    (seed : Z) (bytes : string) (graph : Graph) : Prop :=
  getValue_int clp "s" (Some 19900325) = Val seed /\
  ifstream fs infile = Some bytes /\
  Graph_read bytes = Val graph.

(** The configuration errors [main] itself reports, with their message. *)
Inductive configuration_error (args : list string) : string -> Prop :=
| bad_command_line what :
    clp_parse args = Fail (invalid_argument what) ->
    configuration_error args what
| bad_seed clp n i o what :
    configured args clp n i o ->
    getValue_int clp "s" (Some 19900325) = Fail (invalid_argument what) ->
    configuration_error args what
| unreadable_input clp n i o seed :
    configured args clp n i o ->
    getValue_int clp "s" (Some 19900325) = Val seed ->
    ifstream fs i = None ->
    configuration_error args ("file not found -- '" ++ i ++ "'")
| rejected_input clp n i o seed bytes what :
    configured args clp n i o ->
    getValue_int clp "s" (Some 19900325) = Val seed ->
    ifstream fs i = Some bytes ->
    Graph_read bytes = Fail (invalid_argument what) ->
    configuration_error args what
| unwritable_output clp n i o seed bytes graph :
    configured args clp n i o ->
    loaded clp i seed bytes graph ->
    ofstream_good fs (o ++ ".csv") = false ->
    configuration_error args ("file cannot be opened -- '" ++ o ++ ".csv'").

(** How the block ends when it stops before the output file is open. *)
Definition stopped_early (infile outfile : string) (r : res unit) : Prop :=
  (ifstream fs infile = None /\
   r = Fail (invalid_argument ("file not found -- '" ++ infile ++ "'"))) \/
  (exists bytes f,
     ifstream fs infile = Some bytes /\ Graph_read bytes = Fail f /\ r = Fail f) \/
  (exists bytes graph,
     ifstream fs infile = Some bytes /\ Graph_read bytes = Val graph /\
     ofstream_good fs (outfile ++ ".csv") = false /\
     r = Fail (invalid_argument ("file cannot be opened -- '" ++ outfile ++ ".csv'"))).

(** What the block has done once the output file is open. *)
Definition wrote (clp : CommandLineParser) (numPairs : Z) (infile outfile : string)
    (r : res unit) (p p' : Process) : Prop :=
  exists bytes graph new s,
    ifstream fs infile = Some bytes /\ Graph_read bytes = Val graph /\
    ofstream_good fs (outfile ++ ".csv") = true /\
    calls p' = (calls p ++ new)%list /\
    Forall (mode_request clp) new /\
    out p' = Some (outfile ++ ".csv",
                   "# Input graph: " ++ infile ++ endl ++ "# Methodology: " ++ s) /\
    (r = Val tt ->
     Forall replied new /\
     exists methodology,
       mode_complete clp numPairs new methodology /\
       s = methodology ++ endl ++ columns ++ rows new).

(** Two parsed command lines answer alike every lookup [main] performs,
    the seed lookup apart. *)
Definition same_options (clp1 clp2 : CommandLineParser) : Prop :=
  (forall name, In name ["help"; "len"; "r"; "d"; "geo"] ->
                isSet clp1 name = isSet clp2 name) /\
  getValue_int clp1 "n" None = getValue_int clp2 "n" None /\
  getValue_string clp1 "i" = getValue_string clp2 "i" /\
  getValue_string clp1 "o" = getValue_string clp2 "o" /\
  getValue_int clp1 "d" None = getValue_int clp2 "d" None /\
  getValues_int clp1 "r" = getValues_int clp2 "r".

(** Two parsed command lines answer alike every lookup [main] performs. *)
Definition same_configuration (clp1 clp2 : CommandLineParser) : Prop :=
  same_options clp1 clp2 /\
  getValue_int clp1 "s" (Some 19900325) = getValue_int clp2 "s" (Some 19900325).

(** A lookup with a default answers the default for an option that is not set. *)
Definition defaults_when_unset (clp : CommandLineParser) : Prop :=
  forall name d, isSet clp name = false -> getValue_int clp name (Some d) = Val d.

(** The handler of both [catch] clauses of [main]. *)
Definition report (argv0 : string) (what : string) : M Z :=
  printErrorMessage argv0 what ;; ret EXIT_FAILURE.

End Statements.

(** ** Vocabulary of the statements about failing and idle runs *)

(** A log in which no call but the last one raised. *)
Definition raised_last (cs : list Call) : Prop := Forall replied (removelast cs).

Section Further.

Context {ext : Collaborators}.

(** The branch [main] enters at lines 86, 104 or 132. *)
Definition branch (clp : CommandLineParser) (numPairs : Z) (graph : Graph)
    (gen : ODPairGenerator) (rand : RandomEngine) (bar : ProgressBar) : M unit :=
  if isSet clp "r" then by_rank clp numPairs graph gen rand bar
  else if isSet clp "d" then by_distance clp numPairs graph gen rand bar
  else uniformly numPairs graph gen rand bar.

(** What the selected branch has put after [# Methodology: ] once the calls
    [new] are logged, whether or not it ran to its end.  The distance branch
    writes nothing when its [-d] lookup raises. *)
Definition body_text (clp : CommandLineParser) (new : list Call) : string :=
  match selected_mode clp with
  | RankTargeted => "Dijkstra rank" ++ endl ++ columns ++ rows new
  | DistanceTargeted =>
      match getValue_int clp "d" None with
      | Val distance =>
          distance_methodology (isSet clp "geo") distance ++ endl ++ columns ++ rows new
      | Fail _ => EmptyString
      end
  | UniformMode => "random" ++ endl ++ columns ++ rows new
  end.

(** How many times the selected branch runs its loop of [numPairs] calls. *)
Definition batches (clp : CommandLineParser) : nat :=
  match selected_mode clp with
  | RankTargeted =>
      match getValues_int clp "r" with
      | Val ranks => length ranks
      | Fail _ => 0
      end
  | DistanceTargeted | UniformMode => 1
  end.

(** Two parsed command lines answer alike the lookups that the branch they
    select performs: [-d] and [-geo] are left free under [-r], and [-geo] is
    left free without [-d]. *)
Definition same_used_options (clp1 clp2 : CommandLineParser) : Prop :=
  (forall name, In name ["help"; "len"; "r"] -> isSet clp1 name = isSet clp2 name) /\
  getValue_int clp1 "n" None = getValue_int clp2 "n" None /\
  getValue_string clp1 "i" = getValue_string clp2 "i" /\
  getValue_string clp1 "o" = getValue_string clp2 "o" /\
  getValue_int clp1 "s" (Some 19900325) = getValue_int clp2 "s" (Some 19900325) /\
  if isSet clp1 "r" then getValues_int clp1 "r" = getValues_int clp2 "r"
  else isSet clp1 "d" = isSet clp2 "d" /\
       if isSet clp1 "d"
       then getValue_int clp1 "d" None = getValue_int clp2 "d" None /\
            isSet clp1 "geo" = isSet clp2 "geo"
       else True.

(** The sampler returns a pair on every call. *)
Definition sampler_returns : Prop :=
  forall req graph gen rand, exists v, invoke req graph gen rand = Val v.


End Further.

(** ** A graph with edge weights

    The sample implementation with a graph that stores, for a list of edge
    identifiers, a length and a travel time per edge. *)

Module Weighted.

Record graph : Type := {
  edges : list Z;
  length_of : Z -> Z;
  travel_time_of : Z -> Z;
}.

Definition set_travel_time (g : graph) (e v : Z) : graph :=
  {| edges := edges g;
     length_of := length_of g;
     travel_time_of := fun e' => if e' =? e then v else travel_time_of g e' |}.

Definition impl : Collaborators := {|
  CommandLineParser := Sample.table;
  clp_parse := @clp_parse Sample.impl;
  isSet := @isSet Sample.impl;
  getValue_int := @getValue_int Sample.impl;
  getValue_string := @getValue_string Sample.impl;
  getValues_int := @getValues_int Sample.impl;
  ProgressBar := unit;
  bar_new := tt;
  setPercentageOutputInterval := fun b _ => b;
  bar_init := fun b _ => (b, EmptyString);
  bar_incr := fun b => (b, ".");
  Graph := graph;
  Graph_read := fun _ =>
    Val {| edges := [0; 1; 2];
           length_of := fun e => 10 * (e + 1);
           travel_time_of := fun e => 7 - e |};
  graph_edges := edges;
  graph_length := length_of;
  graph_set_travelTime := set_travel_time;
  RandomEngine := Z;
  default_random_engine := fun seed => seed;
  geometric_distribution := fun _ s => (Sample.next s mod 4, Sample.next s);
  ODPairGenerator := unit;
  gen_new := fun _ _ => tt;
  getRandomODPair := fun _ g s =>
    Val ({| origin := Sample.next s mod 3; destination := Sample.next (Sample.next s) mod 3 |},
         g, Sample.next (Sample.next s));
  getRandomODPairChosenByDistance := fun d _ g s =>
    if d <? 0 then Fail (invalid_argument "negative distance")
    else Val ({| origin := Sample.next s mod 3; destination := (Sample.next s + d) mod 3 |},
              g, Sample.next s);
  getRandomODPairChosenByDijkstraRank := fun r _ g s =>
    if 3 <? r then Fail (invalid_argument "rank exceeds the graph")
    else Val ({| origin := Sample.next s mod 3; destination := (Sample.next s + r - 1) mod 3 |},
              g, Sample.next s);
|}.

Definition sample_graph : graph :=
  {| edges := [0; 1; 2];
     length_of := fun e => 10 * (e + 1);
     travel_time_of := fun e => 7 - e |}.

(** A run of this implementation on the sample disk. *)
Definition go (args : list string) : res Z * Process :=
  run (ext := impl) Sample.disk Sample.name args.

Definition help_args : list string := ["-help"; "-n"; "many"].

Definition stray_args : list string := ["pairs"; "-n"; "2"].

Definition garbled_count_args : list string :=
  ["-n"; "many"; "-i"; "graph.bin"; "-o"; "pairs"].

Definition garbled_ranks_args : list string :=
  ["-n"; "2"; "-i"; "graph.bin"; "-o"; "pairs"; "-r"; "1"; "two"].

Definition failing_rank_args : list string :=
  ["-n"; "2"; "-i"; "graph.bin"; "-o"; "pairs"; "-r"; "1"; "2"].

Definition idle_args : list string :=
  ["-n"; "0"; "-i"; "graph.bin"; "-o"; "pairs"; "-r"; "40"].

Definition no_ranks_args : list string :=
  ["-n"; "2"; "-i"; "graph.bin"; "-o"; "pairs"; "-r"].

Definition rank_with_distance_args : list string :=
  ["-n"; "2"; "-i"; "graph.bin"; "-o"; "pairs"; "-r"; "1"; "-d"; "x"; "-geo"].

Definition rank_only_args : list string :=
  ["-n"; "2"; "-i"; "graph.bin"; "-o"; "pairs"; "-r"; "1"].

End Weighted.

(** * Properties *)

(** Running the straight-line part of a computation inside a hypothesis. *)
Ltac run_steps H :=
  repeat (unfold bind, out_put, cout_put, ret, lift, throw in H;
          cbn [cout cerr out calls] in H).

(** ** Strings and rows *)

Lemma append_assoc (a b c : string) : (a ++ b) ++ c = a ++ (b ++ c).
Proof. induction a as [|x a IH]; simpl; [reflexivity | now rewrite IH]. Qed.

Lemma append_nil_r (a : string) : a ++ EmptyString = a.
Proof. induction a as [|x a IH]; simpl; [reflexivity | now rewrite IH]. Qed.

Lemma length_append (a b : string) :
  String.length (a ++ b) = (String.length a + String.length b)%nat.
Proof. induction a as [|x a IH]; simpl; [reflexivity | now rewrite IH]. Qed.

Lemma append_suffix_neq (a b : string) : b <> EmptyString -> a ++ b <> a.
Proof.
  intros Hb Heq. apply (f_equal String.length) in Heq.
  rewrite length_append in Heq. destruct b; [congruence | simpl in Heq; lia].
Qed.

Lemma rows_app (a b : list Call) : rows (a ++ b) = rows a ++ rows b.
Proof.
  induction a as [|c a IH]; simpl; [reflexivity |].
  now rewrite IH, append_assoc.
Qed.

Lemma out_append_nil o : out_append o EmptyString = o.
Proof. destruct o as [[path text]|]; simpl; [now rewrite append_nil_r | reflexivity]. Qed.

Lemma out_append_append o a b : out_append (out_append o a) b = out_append o (a ++ b).
Proof. destruct o as [[path text]|]; simpl; [now rewrite append_assoc | reflexivity]. Qed.

(** ** The loops *)

Lemma grows_refl P p : grows P p p [].
Proof.
  unfold grows. simpl. rewrite app_nil_r, out_append_nil. auto.
Qed.

Lemma grows_cons P p c q p' new :
  cerr q = cerr p ->
  calls q = (calls p ++ [c])%list ->
  out q = out_append (out p) (row c) ->
  P c ->
  grows P q p' new ->
  grows P p p' (c :: new).
Proof.
  intros Hc Hl Ho HP (Hc' & Hl' & Ho' & HF).
  repeat split.
  - congruence.
  - rewrite Hl', Hl, <- app_assoc. reflexivity.
  - rewrite Ho', Ho, out_append_append. reflexivity.
  - now constructor.
Qed.

Lemma grows_app P p q p' new1 new2 :
  grows P p q new1 -> grows P q p' new2 -> grows P p p' (new1 ++ new2).
Proof.
  intros (Hc & Hl & Ho & HF) (Hc' & Hl' & Ho' & HF').
  repeat split.
  - congruence.
  - rewrite Hl', Hl, <- app_assoc. reflexivity.
  - rewrite Ho', Ho, out_append_append, rows_app. reflexivity.
  - apply Forall_app; auto.
Qed.

Lemma grows_weaken (P Q : Call -> Prop) p p' new :
  (forall c, P c -> Q c) -> grows P p p' new -> grows Q p p' new.
Proof.
  intros HPQ (Hc & Hl & Ho & HF). repeat split; auto.
  eapply Forall_impl; eauto.
Qed.

Section Loops.

Context {ext : Collaborators}.

Lemma uniform_pairs_grows n graph : forall gen rand bar p r p',
  uniform_pairs n graph gen rand bar p = (r, p') ->
  exists new,
    grows (fun c => request c = Uniform) p p' new /\
    (r = Val tt -> length new = n /\ Forall replied new).
Proof.
  induction n as [|n IH]; intros gen rand bar p r p' H; simpl in H.
  - inversion H; subst. exists []. split; [apply grows_refl | auto].
  - unfold bind, sample in H.
    destruct (invoke Uniform graph gen rand) as [[[od gen'] rand']|f]; simpl in H.
    + unfold incr_bar in H. destruct (bar_incr bar) as [bar' text]. simpl in H.
      apply IH in H. destruct H as (new & Hg & Hok).
      exists ({| request := Uniform; reply := Some od |} :: new). split.
      * eapply grows_cons; [| | | | exact Hg]; simpl; auto.
      * intros Hr. destruct (Hok Hr) as [Hlen Hrep]. split; [simpl; congruence |].
        constructor; [discriminate | assumption].
    + inversion H; subst.
      exists [{| request := Uniform; reply := None |}]. split.
      * eapply grows_cons; [| | | | apply grows_refl]; simpl; auto.
        now rewrite out_append_nil.
      * discriminate.
Qed.

Lemma distance_pairs_grows n isGeo distance graph : forall gen rand bar p r p',
  distance_pairs n isGeo distance graph gen rand bar p = (r, p') ->
  exists new,
    grows (distance_request isGeo distance) p p' new /\
    (r = Val tt -> length new = n /\ Forall replied new).
Proof.
  induction n as [|n IH]; intros gen rand bar p r p' H; simpl in H.
  - inversion H; subst. exists []. split; [apply grows_refl | auto].
  - remember (if isGeo then geometric_distribution (success_probability distance) rand
              else (distance, rand)) as draw eqn:Hdraw.
    destruct draw as [actualDistance rand1].
    assert (Hreq : forall o, distance_request isGeo distance
                               {| request := ByDistance actualDistance; reply := o |}).
    { intros o. unfold distance_request. destruct isGeo; simpl.
      - exists rand. now rewrite <- Hdraw.
      - congruence. }
    unfold bind, sample in H.
    destruct (invoke (ByDistance actualDistance) graph gen rand1) as [[[od gen'] rand']|f];
      simpl in H.
    + unfold incr_bar in H. destruct (bar_incr bar) as [bar' text]. simpl in H.
      apply IH in H. destruct H as (new & Hg & Hok).
      exists ({| request := ByDistance actualDistance; reply := Some od |} :: new). split.
      * eapply grows_cons; [| | | | exact Hg]; simpl; auto.
      * intros Hr. destruct (Hok Hr) as [Hlen Hrep]. split; [simpl; congruence |].
        constructor; [discriminate | assumption].
    + inversion H; subst.
      exists [{| request := ByDistance actualDistance; reply := None |}]. split.
      * eapply grows_cons; [| | | | apply grows_refl]; simpl; auto.
        now rewrite out_append_nil.
      * discriminate.
Qed.

Lemma rank_pairs_grows n rank graph : forall gen rand bar p r p',
  rank_pairs n rank graph gen rand bar p = (r, p') ->
  exists new,
    grows (rank_request rank) p p' new /\
    (forall v, r = Val v -> length new = n /\ Forall replied new).
Proof.
  induction n as [|n IH]; intros gen rand bar p r p' H; simpl in H.
  - inversion H; subst. exists []. split; [apply grows_refl | auto].
  - unfold bind, shift_one in H.
    destruct (Int.shl 1 rank) as [k|] eqn:Hk; simpl in H.
    + unfold sample in H.
      destruct (invoke (ByDijkstraRank k) graph gen rand) as [[[od gen'] rand']|f];
        simpl in H.
      * unfold incr_bar in H. destruct (bar_incr bar) as [bar' text]. simpl in H.
        apply IH in H. destruct H as (new & Hg & Hok).
        exists ({| request := ByDijkstraRank k; reply := Some od |} :: new). split.
        -- eapply grows_cons; [| | | | exact Hg]; simpl; auto.
           exists k; auto.
        -- intros v Hr. destruct (Hok v Hr) as [Hlen Hrep]. split; [simpl; congruence |].
           constructor; [discriminate | assumption].
      * inversion H; subst.
        exists [{| request := ByDijkstraRank k; reply := None |}]. split.
        -- eapply grows_cons; [| | | | apply grows_refl]; simpl; auto.
           ++ now rewrite out_append_nil.
           ++ exists k; auto.
        -- discriminate.
    + inversion H; subst. exists []. split; [apply grows_refl | discriminate].
Qed.

Lemma rank_request_value rank c :
  rank_request rank c -> request c = ByDijkstraRank (Int.wrap (Z.shiftl 1 rank)).
Proof.
  intros (r & Hr & Hc). unfold Int.shl in Hr.
  destruct ((0 <=? rank) && (rank <? 32)); congruence.
Qed.

Lemma rank_requests_repeat rank new :
  Forall (rank_request rank) new ->
  map request new = repeat (ByDijkstraRank (Int.wrap (Z.shiftl 1 rank))) (length new).
Proof.
  induction 1 as [|c new Hc _ IH]; simpl; [reflexivity |].
  now rewrite IH, (rank_request_value _ _ Hc).
Qed.

Lemma rank_batches_grows ranks numPairs graph : forall gen rand bar p r p',
  rank_batches ranks numPairs graph gen rand bar p = (r, p') ->
  exists new,
    grows (fun c => exists rank, In rank ranks /\ rank_request rank c) p p' new /\
    (r = Val tt ->
     map request new = rank_requests ranks (Z.to_nat numPairs) /\ Forall replied new).
Proof.
  induction ranks as [|rank ranks IH]; intros gen rand bar p r p' H; simpl in H.
  - inversion H; subst. exists []. split; [apply grows_refl | auto].
  - unfold bind at 1 in H. simpl in H.
    unfold bind at 1, init_bar in H. destruct (bar_init bar numPairs) as [bar1 text1].
    simpl in H. unfold bind at 1 in H.
    match type of H with
    | context [rank_pairs ?n ?k ?g ?ge ?ra ?ba ?q] =>
        destruct (rank_pairs n k g ge ra ba q) as [[[[gen2 rand2] bar2]|f] p2] eqn:Hin
    end.
    + apply rank_pairs_grows in Hin. destruct Hin as (new1 & Hg1 & Hok1).
      unfold bind at 1 in H. simpl in H.
      apply IH in H. destruct H as (new2 & Hg2 & Hok2).
      exists (new1 ++ new2)%list. split.
      * eapply grows_app.
        -- eapply grows_weaken; [| exact Hg1]. intros c Hc. exists rank. simpl. auto.
        -- destruct Hg2 as (Hc2 & Hl2 & Ho2 & HF2). repeat split; auto.
           eapply Forall_impl; [| exact HF2].
           intros c (k & Hk & Hc). exists k. simpl. auto.
      * intros Hr. destruct (Hok1 _ eq_refl) as [Hlen1 Hrep1].
        destruct (Hok2 Hr) as [Hreq2 Hrep2]. split.
        -- rewrite map_app, Hreq2. unfold rank_requests. simpl. f_equal.
           destruct Hg1 as (_ & _ & _ & HF1).
           rewrite (rank_requests_repeat _ _ HF1), Hlen1. reflexivity.
        -- apply Forall_app; auto.
    + inversion H; subst.
      apply rank_pairs_grows in Hin. destruct Hin as (new1 & Hg1 & _).
      exists new1. split; [| discriminate].
      eapply grows_weaken; [| exact Hg1]. intros c Hc. exists rank. simpl. auto.
Qed.

(** ** The three branches *)

Lemma grows_extends P p0 p p' new s0 :
  grows P p p' new ->
  cerr p = cerr p0 -> calls p = calls p0 -> out p = out_append (out p0) s0 ->
  extends P p0 p' new (s0 ++ rows new).
Proof.
  intros (Hc' & Hl' & Ho' & HF) Hc Hl Ho. repeat split; auto; try congruence.
  now rewrite Ho', Ho, out_append_append.
Qed.

Lemma uniformly_extends numPairs graph gen rand bar p r p' :
  uniformly numPairs graph gen rand bar p = (r, p') ->
  exists new,
    extends (fun c => request c = Uniform) p p' new
            ("random" ++ endl ++ columns ++ rows new) /\
    (r = Val tt -> length new = Z.to_nat numPairs /\ Forall replied new).
Proof.
  unfold uniformly, init_bar. intros H.
  destruct (bar_init bar numPairs) as [bar1 text1]. run_steps H.
  match type of H with
  | context [uniform_pairs ?n ?g ?ge ?ra ?ba ?q] =>
      destruct (uniform_pairs n g ge ra ba q) as [[[]|f] p1] eqn:Hin
  end; inversion H; subst; clear H;
    apply uniform_pairs_grows in Hin; destruct Hin as (new & Hg & Hok); exists new;
    pose proof (grows_extends _ p _ _ _ _ Hg eq_refl eq_refl (out_append_append _ _ _))
      as (Hc & Hl & Ho & HF).
  - split; [| auto]. repeat split; auto.
  - split; [| discriminate]. repeat split; auto.
Qed.

Lemma extends_nothing P p s :
  out p = out_append (out p) s -> extends P p p [] s.
Proof. intros Ho. unfold extends. rewrite app_nil_r. auto. Qed.

Lemma by_distance_extends clp numPairs graph gen rand bar p r p' :
  by_distance clp numPairs graph gen rand bar p = (r, p') ->
  exists new s,
    extends (fun c => exists distance,
                 getValue_int clp "d" None = Val distance /\
                 distance_request (isSet clp "geo") distance c) p p' new s /\
    (r = Val tt ->
     exists distance,
       getValue_int clp "d" None = Val distance /\
       s = distance_methodology (isSet clp "geo") distance ++ endl ++ columns ++ rows new /\
       length new = Z.to_nat numPairs /\ Forall replied new).
Proof.
  unfold by_distance, init_bar. intros H.
  destruct (getValue_int clp "d" None) as [distance|f] eqn:Hd.
  - destruct (bar_init bar numPairs) as [bar1 text1].
    assert (Hin : exists q r1 p1,
               distance_pairs (Z.to_nat numPairs) (isSet clp "geo") distance
                              graph gen rand bar1 q = (r1, p1) /\
               cerr q = cerr p /\ calls q = calls p /\
               out q = out_append (out p)
                         (distance_methodology (isSet clp "geo") distance ++ endl ++ columns) /\
               (r = Val tt -> r1 = Val tt) /\ cerr p' = cerr p1 /\ calls p' = calls p1 /\
               out p' = out p1).
    { destruct (isSet clp "geo"); run_steps H;
        match type of H with
        | context [distance_pairs ?n ?b ?d ?g ?ge ?ra ?ba ?q] =>
            destruct (distance_pairs n b d g ge ra ba q) as [[[]|f] p1] eqn:Hin;
              inversion H; subst r p'; clear H;
              eexists q, _, p1; (split; [exact Hin |]); cbn [cout cerr out calls];
              repeat split; auto; try discriminate;
              rewrite !out_append_append; f_equal;
              unfold distance_methodology, columns; now rewrite !append_assoc
        end. }
    destruct Hin as (q & r1 & p1 & Hin & Hc & Hl & Ho & Hr & Hc' & Hl' & Ho').
    apply distance_pairs_grows in Hin. destruct Hin as (new & Hg & Hok).
    pose proof (grows_extends _ p _ _ _ _ Hg Hc Hl Ho) as (Hc1 & Hl1 & Ho1 & HF1).
    exists new, ((distance_methodology (isSet clp "geo") distance ++ endl ++ columns) ++ rows new).
    split.
    + repeat split; try congruence.
      eapply Forall_impl; [| exact HF1]. intros c Hreq. exists distance. auto.
    + intros Hv. exists distance. destruct (Hok (Hr Hv)) as [Hlen Hrep].
      repeat split; auto. now rewrite !append_assoc.
  - run_steps H. inversion H; subst. exists [], EmptyString. split.
    + apply extends_nothing. now rewrite out_append_nil.
    + discriminate.
Qed.

Lemma by_rank_extends clp numPairs graph gen rand bar p r p' :
  by_rank clp numPairs graph gen rand bar p = (r, p') ->
  exists new s,
    extends (fun c => exists ranks rank,
                 getValues_int clp "r" = Val ranks /\ In rank ranks /\
                 rank_request rank c) p p' new s /\
    (r = Val tt ->
     exists ranks,
       getValues_int clp "r" = Val ranks /\
       s = "Dijkstra rank" ++ endl ++ columns ++ rows new /\
       map request new = rank_requests ranks (Z.to_nat numPairs) /\ Forall replied new).
Proof.
  unfold by_rank. intros H. run_steps H.
  destruct (getValues_int clp "r") as [ranks|f] eqn:Hr.
  - apply rank_batches_grows in H. destruct H as (new & Hg & Hok).
    pose proof (grows_extends _ p _ _ _ _ Hg eq_refl eq_refl (out_append_append _ _ _))
      as (Hc1 & Hl1 & Ho1 & HF1).
    exists new, (("Dijkstra rank" ++ endl ++ columns) ++ rows new). split.
    + repeat split; auto.
      eapply Forall_impl; [| exact HF1]. intros c (rank & Hin & Hreq). exists ranks, rank. auto.
    + intros Hv. exists ranks. destruct (Hok Hv) as [Hreq Hrep]. repeat split; auto.
  - inversion H; subst. exists [], ("Dijkstra rank" ++ endl ++ columns). split.
    + unfold extends. cbn [cerr calls out]. rewrite app_nil_r, out_append_append. auto.
    + discriminate.
Qed.

End Loops.

(** ** The guarded block *)

Section Guarded.

Context {ext : Collaborators}.
Variable fs : FileSystem.

Lemma dispatch_extends clp numPairs graph gen rand bar p r p' :
  (if isSet clp "r" then by_rank clp numPairs graph gen rand bar
   else if isSet clp "d" then by_distance clp numPairs graph gen rand bar
   else uniformly numPairs graph gen rand bar) p = (r, p') ->
  exists new s,
    extends (mode_request clp) p p' new s /\
    (r = Val tt ->
     Forall replied new /\
     exists methodology,
       mode_complete clp numPairs new methodology /\
       s = methodology ++ endl ++ columns ++ rows new).
Proof.
  unfold mode_request, mode_complete, selected_mode.
  destruct (isSet clp "r"); [| destruct (isSet clp "d")]; intros H.
  - apply by_rank_extends in H. destruct H as (new & s & He & Hok).
    exists new, s. split; [exact He |].
    intros Hv. destruct (Hok Hv) as (ranks & Hr & Hs & Hreq & Hrep).
    split; [exact Hrep |]. exists "Dijkstra rank". split; [| exact Hs].
    exists ranks. auto.
  - apply by_distance_extends in H. destruct H as (new & s & He & Hok).
    exists new, s. split; [exact He |].
    intros Hv. destruct (Hok Hv) as (distance & Hd & Hs & Hlen & Hrep).
    split; [exact Hrep |].
    exists (distance_methodology (isSet clp "geo") distance). split; [| exact Hs].
    exists distance. auto.
  - apply uniformly_extends in H. destruct H as (new & He & Hok).
    exists new, ("random" ++ endl ++ columns ++ rows new). split; [exact He |].
    intros Hv. destruct (Hok Hv) as (Hlen & Hrep).
    split; [exact Hrep |]. exists "random". auto.
Qed.

Lemma generate_with_spec rand clp numPairs infile outfile p r p' :
  out p = None ->
  generate_with fs rand clp numPairs infile outfile p = (r, p') ->
  cerr p' = cerr p /\
  ((out p' = None /\ calls p' = calls p /\ stopped_early fs infile outfile r) \/
   wrote fs clp numPairs infile outfile r p p').
Proof.
  intros Hnone H. unfold generate_with, open_in, open_out in H.
  destruct (ifstream fs infile) as [bytes|] eqn:Hin.
  - run_steps H. destruct (Graph_read bytes) as [graph|f] eqn:Hg.
    + destruct (ofstream_good fs (outfile ++ ".csv")) eqn:Hout.
      * run_steps H. apply dispatch_extends in H.
        destruct H as (new & s & (Hc & Hl & Ho & HF) & Hok).
        split; [exact Hc |]. right. exists bytes, graph, new, s.
        split; [exact Hin |]. split; [exact Hg |]. split; [exact Hout |].
        split; [exact Hl |]. split; [exact HF |]. split; [| exact Hok].
        cbn [out] in Ho. rewrite Ho, !out_append_append. cbn [out_append append].
        now rewrite !append_assoc.
      * apply pair_equal_spec in H. destruct H as [<- <-].
        split; [reflexivity |]. left. repeat split; auto.
        right. right. exists bytes, graph. repeat split; auto.
        now rewrite !append_assoc.
    + apply pair_equal_spec in H. destruct H as [<- <-].
      split; [reflexivity |]. left. repeat split; auto.
      right. left. exists bytes, f. auto.
  - run_steps H. apply pair_equal_spec in H. destruct H as [<- <-].
    split; [reflexivity |]. left. repeat split; auto.
    left. auto.
Qed.

(** The second [try] block with its handler. *)
Lemma guarded_outcome (body : M unit) argv0 p r p' :
  catch (body ;; ret EXIT_SUCCESS)
        (fun what => printErrorMessage argv0 what ;; ret EXIT_FAILURE) p = (r, p') ->
  exists rb pb,
    body p = (rb, pb) /\ out p' = out pb /\ calls p' = calls pb /\ cout p' = cout pb /\
    match rb with
    | Val _ => r = Val EXIT_SUCCESS /\ cerr p' = cerr pb
    | Fail (invalid_argument what) =>
        r = Val EXIT_FAILURE /\ cerr p' = cerr pb ++ error_text argv0 what
    | Fail f => r = Fail f /\ cerr p' = cerr pb
    end.
Proof.
  unfold catch, printErrorMessage. intros H. run_steps H.
  destruct (body p) as [[[]|f] pb] eqn:Hb; [| destruct f]; run_steps H;
    apply pair_equal_spec in H; destruct H as [<- <-];
    eexists _, pb; (split; [reflexivity |]);
    cbn [cout cerr out calls]; repeat split; auto.
  unfold error_text. now rewrite !append_assoc.
Qed.

Lemma main_configured argv0 args clp n i o p :
  configured args clp n i o ->
  main fs argv0 args p =
  catch (generate fs clp n i o ;; ret EXIT_SUCCESS)
        (fun what => printErrorMessage argv0 what ;; ret EXIT_FAILURE) p.
Proof.
  intros (Hparse & Hhelp & Hn & Hi & Ho).
  unfold main, catch at 1, bind at 1, bind at 1, lift at 1. rewrite Hparse.
  unfold ret at 1. cbv beta iota. rewrite Hhelp.
  unfold bind at 1, lift at 1. rewrite Hn.
  unfold bind at 1, lift at 1. rewrite Hi.
  unfold bind at 1, lift at 1. rewrite Ho.
  reflexivity.
Qed.

(** How the guarded block ends, by how far it got. *)
Lemma generate_spec clp n i o p r p' :
  out p = None ->
  generate fs clp n i o p = (r, p') ->
  cerr p' = cerr p /\
  ((exists f, getValue_int clp "s" (Some 19900325) = Fail f /\
              r = Fail f /\ out p' = None /\ calls p' = calls p) \/
   (exists seed, getValue_int clp "s" (Some 19900325) = Val seed /\
                 out p' = None /\ calls p' = calls p /\ stopped_early fs i o r) \/
   (exists seed, getValue_int clp "s" (Some 19900325) = Val seed /\
                 wrote fs clp n i o r p p')).
Proof.
  intros Hnone H. unfold generate, bind at 1, lift at 1 in H.
  destruct (getValue_int clp "s" (Some 19900325)) as [seed|f] eqn:Hs.
  - apply generate_with_spec in H; [| exact Hnone].
    destruct H as [Hc [(Ho & Hl & Hstop) | Hw]].
    + split; [exact Hc |]. right. left. exists seed. auto.
    + split; [exact Hc |]. right. right. exists seed. auto.
  - apply pair_equal_spec in H. destruct H as [<- <-].
    split; [reflexivity |]. left. exists f. auto.
Qed.

(** A configured run: what the guarded block did, and how [main] ends. *)
Lemma run_configured argv0 args clp n i o r p :
  configured args clp n i o ->
  run fs argv0 args = (r, p) ->
  exists rb pb,
    generate fs clp n i o start = (rb, pb) /\
    out p = out pb /\ calls p = calls pb /\ cerr pb = EmptyString /\
    match rb with
    | Val _ => r = Val EXIT_SUCCESS /\ cerr p = EmptyString
    | Fail (invalid_argument what) => r = Val EXIT_FAILURE /\ cerr p = error_text argv0 what
    | Fail f => r = Fail f /\ cerr p = EmptyString
    end.
Proof.
  intros Hconf H. unfold run in H. rewrite (main_configured _ _ _ _ _ _ _ Hconf) in H.
  apply guarded_outcome in H.
  destruct H as (rb & pb & Hb & Ho & Hl & _ & Hr).
  exists rb, pb. split; [exact Hb |]. split; [exact Ho |]. split; [exact Hl |].
  destruct (generate_spec _ _ _ _ start _ _ eq_refl Hb) as [Hc _]. cbn [cerr start] in Hc.
  split; [exact Hc |].
  rewrite Hc in Hr. destruct rb as [u|[what| |]]; exact Hr.
Qed.

End Guarded.

(** ** Runs of the program *)

Section Runs.

Context {ext : Collaborators}.
Variable fs : FileSystem.

(** A run whose command line does not parse. *)
Lemma run_unparsed argv0 args what :
  clp_parse args = Fail (invalid_argument what) ->
  run fs argv0 args =
  (Val EXIT_FAILURE,
   {| cout := EmptyString; cerr := error_text argv0 what; out := None; calls := [] |}).
Proof.
  intros H. unfold run, main, catch, bind, lift, printErrorMessage. rewrite H.
  unfold bind, cerr_put, ret, start, error_text. cbn [cout cerr out calls].
  f_equal. f_equal. now rewrite !append_assoc.
Qed.

(** A configured run that stops before the output file is open. *)
Lemma run_stopped argv0 args clp n i o what :
  configured args clp n i o ->
  (getValue_int clp "s" (Some 19900325) = Fail (invalid_argument what) \/
   exists seed, getValue_int clp "s" (Some 19900325) = Val seed /\
                stopped_early fs i o (Fail (invalid_argument what))) ->
  fst (run fs argv0 args) = Val EXIT_FAILURE /\
  cerr (snd (run fs argv0 args)) = error_text argv0 what /\
  out (snd (run fs argv0 args)) = None /\
  calls (snd (run fs argv0 args)) = [].
Proof.
  intros Hconf Hcause.
  destruct (run fs argv0 args) as [r p] eqn:Hrun. cbn [fst snd].
  destruct (run_configured fs _ _ _ _ _ _ _ _ Hconf Hrun)
    as (rb & pb & Hb & Ho & Hl & Hc & Hr).
  destruct (generate_spec fs _ _ _ _ start _ _ eq_refl Hb)
    as [_ [(f & Hs & -> & Hout & Hcalls) | [(seed & Hs & Hout & Hcalls & Hstop) | (seed & Hs & Hw)]]].
  - destruct Hcause as [Hs' | (seed & Hs' & _)]; rewrite Hs in Hs'; [| discriminate].
    injection Hs' as ->. destruct Hr as [-> ->]. rewrite Ho, Hl, Hout, Hcalls. auto.
  - destruct Hcause as [Hs' | (seed' & _ & Hstop')]; [rewrite Hs in Hs'; discriminate |].
    assert (rb = Fail (invalid_argument what)) as ->.
    { destruct Hstop as [[Hin ->] | [(b & f & Hin & Hg & ->) | (b & g & Hin & Hg & Hgood & ->)]];
        destruct Hstop' as [[Hin' E] | [(b' & f' & Hin' & Hg' & E) | (b' & g' & Hin' & Hg' & Hgood' & E)]];
        congruence. }
    destruct Hr as [-> ->]. rewrite Ho, Hl, Hout, Hcalls. auto.
  - exfalso. destruct Hw as (b & g & new & txt & Hin & Hg & Hgood & _).
    destruct Hcause as [Hs' | (seed' & _ & Hstop')]; [rewrite Hs in Hs'; discriminate |].
    destruct Hstop' as [[Hin' E] | [(b' & f' & Hin' & Hg' & E) | (b' & g' & Hin' & Hg' & Hgood' & E)]];
      congruence.
Qed.

(** What every configured run leaves behind. *)
Lemma run_leaves argv0 args clp n i o :
  configured args clp n i o ->
  Forall (mode_request clp) (calls (snd (run fs argv0 args))) /\
  (out (snd (run fs argv0 args)) = None \/
   exists text, out (snd (run fs argv0 args)) = Some (o ++ ".csv", text) /\
                ofstream_good fs (o ++ ".csv") = true) /\
  (out (snd (run fs argv0 args)) = None -> calls (snd (run fs argv0 args)) = []).
Proof.
  intros Hconf.
  destruct (run fs argv0 args) as [r p] eqn:Hrun. cbn [fst snd].
  destruct (run_configured fs _ _ _ _ _ _ _ _ Hconf Hrun)
    as (rb & pb & Hb & Ho & Hl & Hc & Hr).
  rewrite Ho, Hl.
  destruct (generate_spec fs _ _ _ _ start _ _ eq_refl Hb)
    as [_ [(f & Hs & -> & Hout & Hcalls) | [(seed & Hs & Hout & Hcalls & Hstop) | (seed & Hs & Hw)]]].
  - rewrite Hout, Hcalls. cbn [calls start]. auto.
  - rewrite Hout, Hcalls. cbn [calls start]. auto.
  - destruct Hw as (b & g & new & txt & Hin & Hg & Hgood & Hnew & HF & Hout & _).
    rewrite Hnew, Hout. cbn [calls start app]. split; [exact HF |].
    split; [right; eauto | discriminate].
Qed.

(** What a configured run that returns [EXIT_SUCCESS] leaves behind. *)
Lemma run_success argv0 args clp n i o :
  configured args clp n i o ->
  fst (run fs argv0 args) = Val EXIT_SUCCESS ->
  Forall replied (calls (snd (run fs argv0 args))) /\
  exists methodology,
    mode_complete clp n (calls (snd (run fs argv0 args))) methodology /\
    out (snd (run fs argv0 args)) =
    Some (o ++ ".csv", header i methodology ++ rows (calls (snd (run fs argv0 args)))).
Proof.
  intros Hconf.
  destruct (run fs argv0 args) as [r p] eqn:Hrun. cbn [fst snd]. intros ->.
  destruct (run_configured fs _ _ _ _ _ _ _ _ Hconf Hrun)
    as (rb & pb & Hb & Ho & Hl & Hc & Hr).
  assert (Hrb : rb = Val tt).
  { destruct rb as [[]|[what| |]]; [reflexivity | | |]; destruct Hr as [Hr _]; discriminate. }
  subst rb. rewrite Ho, Hl.
  destruct (generate_spec fs _ _ _ _ start _ _ eq_refl Hb)
    as [_ [(f & Hs & E & _) | [(seed & Hs & Hout & Hcalls & Hstop) | (seed & Hs & Hw)]]].
  - discriminate.
  - destruct Hstop as [[_ E] | [(b & f & _ & _ & E) | (b & g & _ & _ & _ & E)]]; discriminate.
  - destruct Hw as (b & g & new & txt & Hin & Hg & Hgood & Hnew & HF & Hout & Hok).
    destruct (Hok eq_refl) as (Hrep & methodology & Hm & ->).
    cbn [calls start app] in Hnew. rewrite Hnew, Hout. split; [exact Hrep |].
    exists methodology. split; [exact Hm |].
    unfold header, columns. now rewrite !append_assoc.
Qed.

End Runs.

(** ** Machine powers of two *)


Lemma length_rank_requests ranks n :
  length (rank_requests ranks n) = (n * length ranks)%nat.
Proof.
  unfold rank_requests. induction ranks as [|k ranks IH]; simpl; [lia |].
  rewrite length_app, repeat_length, IH. lia.
Qed.


(** ** The claims about runs *)

Section Claims.

Context {ext : Collaborators}.
Variable fs : FileSystem.

Lemma mode_request_mode clp c :
  mode_request clp c -> mode_of (request c) = selected_mode clp.
Proof.
  unfold mode_request. destruct (selected_mode clp).
  - intros (ranks & rank & _ & _ & (r & _ & ->)). reflexivity.
  - intros (distance & _ & Hreq). unfold distance_request in Hreq.
    destruct (isSet clp "geo"); [destruct Hreq as [rand ->] | rewrite Hreq]; reflexivity.
  - intros ->. reflexivity.
Qed.

(** C3 (as amended).  A command line that does not parse, a seed lookup that
    raises [std::invalid_argument], an input path that does not open, a graph
    file that is rejected with [std::invalid_argument], or an output path
    that does not open once [.csv] is appended: each is met before any
    sampler call, is reported on [std::cerr] by the two lines of
    [printErrorMessage], and ends [main] with [EXIT_FAILURE] and no output
    file. *)
Theorem configuration_error_reported argv0 args what :
  configuration_error fs args what ->
  fst (run fs argv0 args) = Val EXIT_FAILURE /\
  cerr (snd (run fs argv0 args)) = error_text argv0 what /\
  out (snd (run fs argv0 args)) = None /\
  calls (snd (run fs argv0 args)) = [].
Proof.
  intros [what' H
         | clp n i o what' Hconf Hs
         | clp n i o seed Hconf Hs Hin
         | clp n i o seed bytes what' Hconf Hs Hin Hg
         | clp n i o seed bytes graph Hconf (Hs & Hin & Hg) Hout].
  - rewrite (run_unparsed fs argv0 args what' H). cbn [fst snd cerr out calls]. auto.
  - apply (run_stopped fs argv0 args clp n i o); auto.
  - apply (run_stopped fs argv0 args clp n i o); auto.
    right. exists seed. split; [exact Hs |]. left. auto.
  - apply (run_stopped fs argv0 args clp n i o); auto.
    right. exists seed. split; [exact Hs |]. right. left. eauto.
  - apply (run_stopped fs argv0 args clp n i o); auto.
    right. exists seed. split; [exact Hs |]. right. right. exists bytes, graph. auto.
Qed.

(** C10.  A run never writes to the value of [-o] itself: the one stream it
    opens is on that value with [.csv] appended.  Once the graph has been
    read, if that path opens the file is created there and receives the
    line [# Input graph: <infile>]; if it does not open, no file is written,
    the failure is reported by [printErrorMessage] and [main] returns
    [EXIT_FAILURE]. *)
Theorem output_path_has_csv_suffix argv0 args clp n i o :
  configured args clp n i o ->
  (forall path text,
     out (snd (run fs argv0 args)) = Some (path, text) ->
     path = o ++ ".csv" /\ path <> o) /\
  (forall seed bytes graph,
     loaded fs clp i seed bytes graph ->
     ofstream_good fs (o ++ ".csv") = true ->
     exists rest,
       out (snd (run fs argv0 args)) =
       Some (o ++ ".csv", "# Input graph: " ++ i ++ endl ++ rest)) /\
  (ofstream_good fs (o ++ ".csv") = false ->
   out (snd (run fs argv0 args)) = None /\
   fst (run fs argv0 args) <> Val EXIT_SUCCESS) /\
  (forall seed bytes graph,
     loaded fs clp i seed bytes graph ->
     ofstream_good fs (o ++ ".csv") = false ->
     fst (run fs argv0 args) = Val EXIT_FAILURE /\
     cerr (snd (run fs argv0 args)) =
     error_text argv0 ("file cannot be opened -- '" ++ o ++ ".csv'")).
Proof.
  intros Hconf.
  destruct (run_leaves fs argv0 args clp n i o Hconf) as (_ & Hout & _).
  split; [| split; [| split]].
  - intros path text Hp. destruct Hout as [Hnone | (text' & Hsome & _)]; [congruence |].
    rewrite Hsome in Hp. injection Hp as <- <-. split; [reflexivity |].
    apply append_suffix_neq. discriminate.
  - intros seed bytes graph (Hs & Hin & Hg) Hgood.
    destruct (run fs argv0 args) as [r p] eqn:Hrun. cbn [fst snd] in *.
    destruct (run_configured fs _ _ _ _ _ _ _ _ Hconf Hrun)
      as (rb & pb & Hb & Ho & _).
    destruct (generate_spec fs _ _ _ _ start _ _ eq_refl Hb)
      as [_ [(f & Hs' & _) | [(seed' & _ & _ & _ & Hstop) | (seed' & _ & Hw)]]].
    + congruence.
    + destruct Hstop as [[Hin' _] | [(b & f & Hin' & Hg' & _) | (b & g & _ & _ & Hbad & _)]];
        congruence.
    + destruct Hw as (_ & _ & _ & s & _ & _ & _ & _ & _ & Hsome & _).
      exists ("# Methodology: " ++ s). rewrite Ho. exact Hsome.
  - intros Hbad. destruct Hout as [Hnone | (text' & _ & Hgood)]; [| congruence].
    split; [exact Hnone |]. intros Hok.
    destruct (run_success fs argv0 args clp n i o Hconf Hok) as (_ & m & _ & Hsome).
    congruence.
  - intros seed bytes graph Hload Hbad.
    destruct Hload as (Hs & Hin & Hg).
    destruct (run_stopped fs argv0 args clp n i o
                ("file cannot be opened -- '" ++ o ++ ".csv'") Hconf) as (Hr & Hc & _).
    { right. exists seed. split; [exact Hs |]. right. right. exists bytes, graph. auto. }
    auto.
Qed.

(** C6.  The branch taken is a function of the command line: rank-targeted
    when [-r] is set, else distance-targeted when [-d] is set, else uniform
    (so uniform exactly when neither is set).  Every sampler call of a run
    belongs to that one mode, and a run that returns [EXIT_SUCCESS] has
    announced the methodology of that mode and no other. *)
Theorem one_mode_per_run argv0 args clp n i o :
  configured args clp n i o ->
  Forall (fun c => mode_of (request c) = selected_mode clp)
         (calls (snd (run fs argv0 args))) /\
  (selected_mode clp = UniformMode <-> isSet clp "r" = false /\ isSet clp "d" = false) /\
  (fst (run fs argv0 args) = Val EXIT_SUCCESS ->
   exists methodology,
     out (snd (run fs argv0 args)) =
     Some (o ++ ".csv", header i methodology ++ rows (calls (snd (run fs argv0 args)))) /\
     match selected_mode clp with
     | RankTargeted => methodology = "Dijkstra rank"
     | DistanceTargeted =>
         exists distance, methodology = distance_methodology (isSet clp "geo") distance
     | UniformMode => methodology = "random"
     end).
Proof.
  intros Hconf. split; [| split].
  - destruct (run_leaves fs argv0 args clp n i o Hconf) as (HF & _).
    eapply Forall_impl; [| exact HF]. intros c. apply mode_request_mode.
  - unfold selected_mode. destruct (isSet clp "r"), (isSet clp "d"); split;
      try discriminate; try tauto; intros [? ?]; discriminate.
  - intros Hok.
    destruct (run_success fs argv0 args clp n i o Hconf Hok) as (_ & m & Hm & Hout).
    exists m. split; [exact Hout |].
    unfold mode_complete in Hm. destruct (selected_mode clp).
    + destruct Hm as (ranks & _ & _ & ->). reflexivity.
    + destruct Hm as (distance & _ & _ & ->). exists distance. reflexivity.
    + destruct Hm as (_ & ->). reflexivity.
Qed.

(** C7.  In the distance branch without [-geo], every sampler call of the run
    is [getRandomODPairChosenByDistance] with the value of [-d] itself, and a
    run that returns [EXIT_SUCCESS] has made [numPairs] such calls. *)
Theorem equidistant_target argv0 args clp n i o distance :
  configured args clp n i o ->
  isSet clp "r" = false ->
  isSet clp "d" = true ->
  isSet clp "geo" = false ->
  getValue_int clp "d" None = Val distance ->
  Forall (fun c => request c = ByDistance distance) (calls (snd (run fs argv0 args))) /\
  (fst (run fs argv0 args) = Val EXIT_SUCCESS ->
   length (calls (snd (run fs argv0 args))) = Z.to_nat n).
Proof.
  intros Hconf Hr Hd Hgeo Hdist. split.
  - destruct (run_leaves fs argv0 args clp n i o Hconf) as (HF & _).
    eapply Forall_impl; [| exact HF]. intros c.
    unfold mode_request, selected_mode. rewrite Hr, Hd, Hgeo.
    intros (distance' & Hd' & Hreq). unfold distance_request in Hreq. congruence.
  - intros Hok.
    destruct (run_success fs argv0 args clp n i o Hconf Hok) as (_ & m & Hm & _).
    unfold mode_complete, selected_mode in Hm. rewrite Hr, Hd in Hm.
    destruct Hm as (distance' & _ & Hlen & _). exact Hlen.
Qed.

(** C8.  A run that returns [EXIT_SUCCESS] with a count [numPairs >= 0] has
    written, after the three opening lines, one row per sampler call, and
    has made [numPairs] calls in the uniform and in the distance branch and
    [numPairs] times the number of listed ranks in the Dijkstra-rank
    branch. *)
Theorem record_count argv0 args clp n i o :
  configured args clp n i o ->
  0 <= n ->
  fst (run fs argv0 args) = Val EXIT_SUCCESS ->
  (exists methodology,
     out (snd (run fs argv0 args)) =
     Some (o ++ ".csv", header i methodology ++ rows (calls (snd (run fs argv0 args))))) /\
  Forall replied (calls (snd (run fs argv0 args))) /\
  match selected_mode clp with
  | RankTargeted =>
      exists ranks,
        getValues_int clp "r" = Val ranks /\
        Z.of_nat (length (calls (snd (run fs argv0 args)))) = n * Z.of_nat (length ranks)
  | DistanceTargeted | UniformMode =>
      Z.of_nat (length (calls (snd (run fs argv0 args)))) = n
  end.
Proof.
  intros Hconf Hn Hok.
  destruct (run_success fs argv0 args clp n i o Hconf Hok) as (Hrep & m & Hm & Hout).
  split; [eauto |]. split; [exact Hrep |].
  unfold mode_complete in Hm. destruct (selected_mode clp).
  - destruct Hm as (ranks & Hranks & Hreq & _). exists ranks. split; [exact Hranks |].
    apply (f_equal (@length Request)) in Hreq.
    rewrite length_map, length_rank_requests in Hreq. rewrite Hreq. lia.
  - destruct Hm as (distance & _ & Hlen & _). rewrite Hlen. lia.
  - destruct Hm as (Hlen & _). rewrite Hlen. lia.
Qed.


(** C2 (the defect).  A run that returns [EXIT_SUCCESS] has written, in
    every mode, the column line [origin,destination,dijkstra_rank] and below
    it one row per sampler call: three fields, the third being the requested
    rank, in the Dijkstra-rank branch, and two fields only in the distance
    and uniform branches, whose rows therefore lack the column the file
    announces. *)
Theorem rank_column_without_rank_field argv0 args clp n i o :
  configured args clp n i o ->
  fst (run fs argv0 args) = Val EXIT_SUCCESS ->
  (exists methodology,
     out (snd (run fs argv0 args)) =
     Some (o ++ ".csv",
           "# Input graph: " ++ i ++ endl ++
           "# Methodology: " ++ methodology ++ endl ++
           "origin,destination,dijkstra_rank" ++ endl ++
           rows (calls (snd (run fs argv0 args))))) /\
  Forall (fun c => exists od,
              reply c = Some od /\
              if isSet clp "r"
              then exists r,
                     request c = ByDijkstraRank r /\
                     row c = Int.show (origin od) ++ "," ++ Int.show (destination od)
                             ++ "," ++ Int.show r ++ endl
              else row c = Int.show (origin od) ++ "," ++ Int.show (destination od) ++ endl)
         (calls (snd (run fs argv0 args))).
Proof.
  intros Hconf Hok.
  destruct (run_success fs argv0 args clp n i o Hconf Hok) as (Hrep & m & _ & Hout).
  split.
  { exists m. rewrite Hout. unfold header. now rewrite !append_assoc. }
  destruct (run_leaves fs argv0 args clp n i o Hconf) as (HF & _).
  apply Forall_forall. intros c Hc.
  rewrite Forall_forall in Hrep, HF. specialize (Hrep c Hc). specialize (HF c Hc).
  apply mode_request_mode in HF. unfold selected_mode in HF.
  unfold replied in Hrep. destruct (reply c) as [od|] eqn:Hod; [| congruence].
  exists od. split; [reflexivity |]. unfold row. rewrite Hod.
  destruct (isSet clp "r").
  - destruct (request c) as [|d|r]; try discriminate. exists r. auto.
  - destruct (request c) as [|d|r]; try reflexivity.
    simpl in HF. destruct (isSet clp "d"); discriminate.
Qed.

End Claims.

(** ** Dependence on the configuration only *)

Section Agreement.

Context {ext : Collaborators}.

Lemma by_rank_agree clp1 clp2 :
  same_configuration clp1 clp2 -> by_rank clp1 = by_rank clp2.
Proof.
  intros ((Hset & _ & _ & _ & _ & Hr) & _). unfold by_rank.
  rewrite (Hset "len") by (simpl; tauto). rewrite Hr. reflexivity.
Qed.

Lemma by_distance_agree clp1 clp2 :
  same_configuration clp1 clp2 -> by_distance clp1 = by_distance clp2.
Proof.
  intros ((Hset & _ & _ & _ & Hd & _) & _). unfold by_distance.
  rewrite (Hset "len") by (simpl; tauto). rewrite (Hset "geo") by (simpl; tauto).
  rewrite Hd. reflexivity.
Qed.

Lemma generate_agree fs1 fs2 clp1 clp2 n i o :
  same_configuration clp1 clp2 ->
  ifstream fs1 i = ifstream fs2 i ->
  ofstream_good fs1 (o ++ ".csv") = ofstream_good fs2 (o ++ ".csv") ->
  generate fs1 clp1 n i o = generate fs2 clp2 n i o.
Proof.
  intros Hsame Hin Hout. pose proof Hsame as ((Hset & _) & Hs).
  unfold generate, generate_with, open_in, open_out.
  rewrite Hs, Hin, Hout.
  rewrite (Hset "len") by (simpl; tauto). rewrite (Hset "r") by (simpl; tauto).
  rewrite (Hset "d") by (simpl; tauto).
  rewrite (by_rank_agree _ _ Hsame), (by_distance_agree _ _ Hsame). reflexivity.
Qed.

Lemma main_parsed fs argv0 args clp p :
  clp_parse args = Val clp ->
  main fs argv0 args p =
  (if isSet clp "help" then printUsage ;; ret EXIT_SUCCESS
   else
     numPairs <- lift (getValue_int clp "n" None) ;;
     infile <- lift (getValue_string clp "i") ;;
     outfile <- lift (getValue_string clp "o") ;;
     catch (generate fs clp numPairs infile outfile ;; ret EXIT_SUCCESS)
           (fun what => printErrorMessage argv0 what ;; ret EXIT_FAILURE)) p.
Proof.
  intros H. unfold main, catch at 1, bind at 1, bind at 1, lift at 1. rewrite H.
  reflexivity.
Qed.

Lemma run_agree fs1 fs2 argv0 args1 args2 clp1 clp2 :
  clp_parse args1 = Val clp1 ->
  clp_parse args2 = Val clp2 ->
  same_configuration clp1 clp2 ->
  (forall i, getValue_string clp1 "i" = Val i -> ifstream fs1 i = ifstream fs2 i) ->
  (forall o, getValue_string clp1 "o" = Val o ->
             ofstream_good fs1 (o ++ ".csv") = ofstream_good fs2 (o ++ ".csv")) ->
  run fs1 argv0 args1 = run fs2 argv0 args2.
Proof.
  intros Hp1 Hp2 Hsame Hin Hout. pose proof Hsame as ((Hset & Hn & Hi & Ho & _) & _).
  unfold run. rewrite (main_parsed fs1 _ _ _ _ Hp1), (main_parsed fs2 _ _ _ _ Hp2).
  rewrite (Hset "help") by (simpl; tauto).
  destruct (isSet clp2 "help"); [reflexivity |].
  rewrite Hn, <- Hi, <- Ho.
  destruct (getValue_int clp2 "n" None) as [n|f]; [| reflexivity].
  destruct (getValue_string clp1 "i") as [i|f] eqn:Ei; [| reflexivity].
  destruct (getValue_string clp1 "o") as [o|f] eqn:Eo; [| reflexivity].
  cbv beta iota delta [bind lift].
  rewrite (generate_agree fs1 fs2 clp1 clp2 n i o Hsame (Hin i eq_refl) (Hout o eq_refl)).
  reflexivity.
Qed.


End Agreement.

(** ** Lookups that raise *)

Section Lookups.

Context {ext : Collaborators}.
Variable fs : FileSystem.

(** A lookup that raises ahead of the guarded block is not caught: [main]
    ends with the exception and nothing is printed. *)
Lemma early_lookup_escapes argv0 args clp f :
  clp_parse args = Val clp ->
  isSet clp "help" = false ->
  getValue_int clp "n" None = Fail f ->
  run fs argv0 args = (Fail f, start).
Proof.
  intros Hp Hh Hn. unfold run. rewrite (main_parsed fs argv0 args clp start Hp), Hh.
  unfold bind at 1, lift at 1. rewrite Hn. reflexivity.
Qed.

(** A [-d] lookup that raises is reported only after the output file has been
    opened and its first lines begun. *)
Lemma late_lookup_leaves_file argv0 args clp n i o seed bytes graph what :
  configured args clp n i o ->
  loaded fs clp i seed bytes graph ->
  ofstream_good fs (o ++ ".csv") = true ->
  isSet clp "r" = false ->
  isSet clp "d" = true ->
  getValue_int clp "d" None = Fail (invalid_argument what) ->
  fst (run fs argv0 args) = Val EXIT_FAILURE /\
  out (snd (run fs argv0 args)) =
  Some (o ++ ".csv", "# Input graph: " ++ i ++ endl ++ "# Methodology: ").
Proof.
  intros Hconf (Hs & Hin & Hg) Hout Hr Hd Hdist.
  unfold run. rewrite (main_configured fs _ _ _ _ _ _ _ Hconf).
  unfold catch, generate, generate_with, open_in, open_out, by_distance, printErrorMessage.
  rewrite Hr, Hd, Hdist.
  cbv beta iota delta [bind lift ret throw out_put cout_put cerr_put start
                       cout cerr out calls fst snd out_append].
  rewrite Hs, Hin, Hg, Hout.
  cbv beta iota delta [bind lift ret throw out_put cout_put cerr_put start
                       cout cerr out calls fst snd out_append].
  split; [reflexivity |]. now rewrite !append_assoc.
Qed.

End Lookups.

(** ** The default seed *)

Section Seed.

Context {ext : Collaborators}.
Variable fs : FileSystem.

(** C9.  When [-s] is not set, and the parser answers a lookup with default
    by that default, the guarded block runs with the engine
    [default_random_engine 19900325].  Any other run without [-s] whose
    command line answers the remaining lookups alike, on a file system with
    the same input bytes and the same fate of the output path, ends exactly
    as this one does. *)
Theorem default_seed argv0 args clp n i o :
  configured args clp n i o ->
  isSet clp "s" = false ->
  defaults_when_unset clp ->
  run fs argv0 args =
  catch (generate_with fs (default_random_engine 19900325) clp n i o ;; ret EXIT_SUCCESS)
        (report argv0) start /\
  forall fs' args' clp',
    clp_parse args' = Val clp' ->
    isSet clp' "s" = false ->
    defaults_when_unset clp' ->
    same_options clp clp' ->
    ifstream fs i = ifstream fs' i ->
    ofstream_good fs (o ++ ".csv") = ofstream_good fs' (o ++ ".csv") ->
    run fs' argv0 args' = run fs argv0 args.
Proof.
  intros Hconf Hs Hdef. split.
  - unfold run. rewrite (main_configured fs _ _ _ _ _ _ _ Hconf).
    unfold generate. rewrite (Hdef "s" 19900325 Hs). reflexivity.
  - intros fs' args' clp' Hp' Hs' Hdef' Hsame Hin Hout.
    destruct Hconf as (Hp & _ & _ & Hi & Ho).
    symmetry. apply (run_agree fs fs' argv0 args args' clp clp' Hp Hp').
    + split; [exact Hsame |]. now rewrite (Hdef "s" 19900325 Hs), (Hdef' "s" 19900325 Hs').
    + intros i0 Hi0. rewrite Hi in Hi0. injection Hi0 as <-. exact Hin.
    + intros o0 Ho0. rewrite Ho in Ho0. injection Ho0 as <-. exact Hout.
Qed.

End Seed.

(** ** The mean of the geometric draws *)

Lemma Qpow_nonneg q n : (0 <= q)%Q -> (0 <= Qpow q n)%Q.
Proof.
  intros Hq. induction n as [|n IH]; simpl; [discriminate |].
  apply Qmult_le_0_compat; assumption.
Qed.

Lemma inject_succ n : (inject_Z (Z.of_nat (S n)) == inject_Z (Z.of_nat n) + 1)%Q.
Proof. rewrite Nat2Z.inj_succ. unfold Z.succ. now rewrite inject_Z_plus. Qed.

(** The partial sums of the mean, in closed form. *)
Lemma geometric_mean_upto p n :
  (~ p == 0)%Q ->
  (mean_upto (geometric_pmf p) n ==
   ((1 - p) / p) * (1 - Qpow (1 - p) n * (1 + inject_Z (Z.of_nat n) * p)))%Q.
Proof.
  intros Hp. induction n as [|n IH].
  - simpl. field. exact Hp.
  - cbn [mean_upto]. rewrite IH. unfold geometric_pmf. cbn [Qpow].
    rewrite inject_succ. field. exact Hp.
Qed.

(** With parameter [1 / d] every partial sum of the mean has the closed form
    below and stays at or under [d - 1]. *)
Lemma geometric_mean_bound d n :
  1 <= d ->
  (mean_upto (geometric_pmf (success_probability d)) n ==
   (inject_Z d - 1) *
   (1 - Qpow (1 - 1 / inject_Z d) n * (1 + inject_Z (Z.of_nat n) / inject_Z d)))%Q /\
  (mean_upto (geometric_pmf (success_probability d)) n <= inject_Z d - 1)%Q.
Proof.
  intros Hd.
  assert (Hd0 : (~ inject_Z d == 0)%Q).
  { intros E. unfold Qeq in E. simpl in E. lia. }
  assert (Hp : (~ success_probability d == 0)%Q).
  { unfold success_probability. intros E.
    apply Hd0. setoid_replace (inject_Z d) with (1 / (1 / inject_Z d))%Q by (field; auto).
    rewrite E. reflexivity. }
  assert (Hform : (mean_upto (geometric_pmf (success_probability d)) n ==
            (inject_Z d - 1) *
            (1 - Qpow (1 - 1 / inject_Z d) n * (1 + inject_Z (Z.of_nat n) / inject_Z d)))%Q).
  { rewrite (geometric_mean_upto _ n Hp). unfold success_probability. field. exact Hd0. }
  split; [exact Hform |].
  rewrite Hform.
  assert (Hd1 : (0 <= inject_Z d - 1)%Q).
  { unfold Qle. simpl. lia. }
  assert (Hq : (0 <= 1 - 1 / inject_Z d)%Q).
  { setoid_replace (1 - 1 / inject_Z d)%Q with ((inject_Z d - 1) / inject_Z d)%Q
      by (field; exact Hd0).
    apply Qle_shift_div_l.
    - change 0%Q with (inject_Z 0). rewrite <- Zlt_Qlt. lia.
    - rewrite Qmult_0_l. exact Hd1. }
  assert (Hn : (0 <= 1 + inject_Z (Z.of_nat n) / inject_Z d)%Q).
  { apply (Qle_trans _ (0 + 0)); [discriminate |].
    apply Qplus_le_compat; [discriminate |].
    apply Qle_shift_div_l.
    - change 0%Q with (inject_Z 0). rewrite <- Zlt_Qlt. lia.
    - rewrite Qmult_0_l. change 0%Q with (inject_Z 0). rewrite <- Zle_Qle. lia. }
  pose proof (Qmult_le_0_compat _ _ (Qpow_nonneg _ n Hq) Hn) as Hprod.
  set (t := (Qpow (1 - 1 / inject_Z d) n * (1 + inject_Z (Z.of_nat n) / inject_Z d))%Q) in *.
  apply Qle_minus_iff.
  setoid_replace (inject_Z d - 1 + - ((inject_Z d - 1) * (1 - t)))%Q
    with ((inject_Z d - 1) * t)%Q by ring.
  apply Qmult_le_0_compat; assumption.
Qed.

Section Geometric.

Context {ext : Collaborators}.
Variable fs : FileSystem.

(** C1 (the defect).  Under [-d distance -geo] every sampler call of the run
    is [getRandomODPairChosenByDistance] with a draw of
    [std::geometric_distribution] of parameter [1 / distance]; every partial
    sum of the mean of that distribution stays at or under [distance - 1],
    so its mean is [distance - 1], one short of [distance]. *)
Theorem geometric_target_one_short argv0 args clp n i o distance :
  configured args clp n i o ->
  isSet clp "r" = false ->
  isSet clp "d" = true ->
  isSet clp "geo" = true ->
  getValue_int clp "d" None = Val distance ->
  1 <= distance ->
  Forall (fun c => exists rand,
              request c =
              ByDistance (fst (geometric_distribution (success_probability distance) rand)))
         (calls (snd (run fs argv0 args))) /\
  forall k,
    (mean_upto (geometric_pmf (success_probability distance)) k ==
     (inject_Z distance - 1) *
     (1 - Qpow (1 - 1 / inject_Z distance) k *
          (1 + inject_Z (Z.of_nat k) / inject_Z distance)))%Q /\
    (mean_upto (geometric_pmf (success_probability distance)) k <= inject_Z distance - 1)%Q.
Proof.
  intros Hconf Hr Hd Hgeo Hdist Hpos. split.
  - destruct (run_leaves fs argv0 args clp n i o Hconf) as (HF & _).
    eapply Forall_impl; [| exact HF]. intros c.
    unfold mode_request, selected_mode. rewrite Hr, Hd, Hgeo.
    intros (distance' & Hd' & Hreq). unfold distance_request in Hreq.
    rewrite Hdist in Hd'. injection Hd' as <-. exact Hreq.
  - intros k. apply geometric_mean_bound. exact Hpos.
Qed.

End Geometric.

(** ** Concrete runs *)

Lemma configuration_error_reported_witness :
  fst (Sample.go Sample.unwritable_args) = Val EXIT_FAILURE /\
  cerr (snd (Sample.go Sample.unwritable_args)) =
  error_text Sample.name "file cannot be opened -- '/proc/pairs.csv'" /\
  out (snd (Sample.go Sample.unwritable_args)) = None /\
  calls (snd (Sample.go Sample.unwritable_args)) = [].
Proof.
  apply (configuration_error_reported (ext := Sample.impl) Sample.disk Sample.name
           Sample.unwritable_args).
  apply (unwritable_output (ext := Sample.impl) Sample.disk Sample.unwritable_args
           (Sample.parsed Sample.unwritable_args) 1 "graph.bin" "/proc/pairs"
           19900325 "bytes" "bytes").
  - repeat split; reflexivity.
  - repeat split; reflexivity.
  - reflexivity.
Defined.

(** C3 (as stated) fails.  A command line without the required [-n] is not
    reported: the run writes the output file and returns [EXIT_SUCCESS].  A
    [-d] value that is not a number is reported only after the output file
    has been created and its first two lines begun. *)
Lemma configuration_errors_not_reported_cleanly :
  (isSet (Collaborators := Sample.impl) (Sample.parsed Sample.countless_args) "n" = false /\
   Sample.go Sample.countless_args =
   (Val EXIT_SUCCESS,
    {| cout := "Reading the input graph... done." ++ endl ++
               "Generating 0 OD-pairs: done." ++ endl;
       cerr := EmptyString;
       out := Some ("pairs.csv", header "graph.bin" "random");
       calls := [] |})) /\
  (getValue_int (Collaborators := Sample.impl) (Sample.parsed Sample.garbled_args) "d" None =
   Fail (invalid_argument "'x2' is not an integer") /\
   fst (Sample.go Sample.garbled_args) = Val EXIT_FAILURE /\
   out (snd (Sample.go Sample.garbled_args)) =
   Some ("pairs.csv", "# Input graph: graph.bin" ++ endl ++ "# Methodology: ")).
Proof. vm_compute. repeat split; reflexivity. Qed.

Lemma output_path_has_csv_suffix_witness :
  ((forall path text,
      out (snd (Sample.go Sample.uniform_args)) = Some (path, text) ->
      path = "pairs" ++ ".csv" /\ path <> "pairs") /\
   (forall seed bytes graph,
      loaded (ext := Sample.impl) Sample.disk (Sample.parsed Sample.uniform_args)
             "graph.bin" seed bytes graph ->
      ofstream_good Sample.disk ("pairs" ++ ".csv") = true ->
      exists rest,
        out (snd (Sample.go Sample.uniform_args)) =
        Some ("pairs" ++ ".csv", "# Input graph: " ++ "graph.bin" ++ endl ++ rest)) /\
   (ofstream_good Sample.disk ("pairs" ++ ".csv") = false ->
    out (snd (Sample.go Sample.uniform_args)) = None /\
    fst (Sample.go Sample.uniform_args) <> Val EXIT_SUCCESS) /\
   (forall seed bytes graph,
      loaded (ext := Sample.impl) Sample.disk (Sample.parsed Sample.uniform_args)
             "graph.bin" seed bytes graph ->
      ofstream_good Sample.disk ("pairs" ++ ".csv") = false ->
      fst (Sample.go Sample.uniform_args) = Val EXIT_FAILURE /\
      cerr (snd (Sample.go Sample.uniform_args)) =
      error_text Sample.name ("file cannot be opened -- '" ++ "pairs" ++ ".csv'"))) /\
  ((exists rest,
      out (snd (Sample.go Sample.uniform_args)) =
      Some ("pairs" ++ ".csv", "# Input graph: " ++ "graph.bin" ++ endl ++ rest)) /\
   (out (snd (Sample.go Sample.unwritable_args)) = None /\
    fst (Sample.go Sample.unwritable_args) = Val EXIT_FAILURE /\
    cerr (snd (Sample.go Sample.unwritable_args)) =
    error_text Sample.name ("file cannot be opened -- '" ++ "/proc/pairs" ++ ".csv'"))).
Proof.
  assert (Hopen := output_path_has_csv_suffix (ext := Sample.impl) Sample.disk Sample.name
                     Sample.uniform_args (Sample.parsed Sample.uniform_args)
                     2 "graph.bin" "pairs").
  assert (Hshut := output_path_has_csv_suffix (ext := Sample.impl) Sample.disk Sample.name
                     Sample.unwritable_args (Sample.parsed Sample.unwritable_args)
                     1 "graph.bin" "/proc/pairs").
  assert (Hconf1 : configured (ext := Sample.impl) Sample.uniform_args
                     (Sample.parsed Sample.uniform_args) 2 "graph.bin" "pairs")
    by (repeat split; reflexivity).
  assert (Hconf2 : configured (ext := Sample.impl) Sample.unwritable_args
                     (Sample.parsed Sample.unwritable_args) 1 "graph.bin" "/proc/pairs")
    by (repeat split; reflexivity).
  assert (Hload1 : loaded (ext := Sample.impl) Sample.disk (Sample.parsed Sample.uniform_args)
                     "graph.bin" 19900325 "bytes" "bytes")
    by (repeat split; reflexivity).
  assert (Hload2 : loaded (ext := Sample.impl) Sample.disk
                     (Sample.parsed Sample.unwritable_args)
                     "graph.bin" 19900325 "bytes" "bytes")
    by (repeat split; reflexivity).
  split; [exact (Hopen Hconf1) |].
  destruct (Hopen Hconf1) as (_ & Hwritten & _).
  destruct (Hshut Hconf2) as (_ & _ & Hnone & Hreport).
  split.
  - exact (Hwritten 19900325 "bytes" "bytes" Hload1 eq_refl).
  - destruct (Hnone eq_refl) as [Hno _].
    destruct (Hreport 19900325 "bytes" "bytes" Hload2 eq_refl) as [Hexit Herr].
    auto.
Defined.

Lemma one_mode_per_run_witness :
  Forall (fun c => mode_of (request c) = RankTargeted)
         (calls (snd (Sample.go Sample.rank_args))) /\
  (selected_mode (ext := Sample.impl) (Sample.parsed Sample.rank_args) = UniformMode <->
   isSet (Collaborators := Sample.impl) (Sample.parsed Sample.rank_args) "r" = false /\
   isSet (Collaborators := Sample.impl) (Sample.parsed Sample.rank_args) "d" = false) /\
  (fst (Sample.go Sample.rank_args) = Val EXIT_SUCCESS ->
   exists methodology,
     out (snd (Sample.go Sample.rank_args)) =
     Some ("pairs" ++ ".csv",
           header "graph.bin" methodology ++ rows (calls (snd (Sample.go Sample.rank_args)))) /\
     methodology = "Dijkstra rank").
Proof.
  apply (one_mode_per_run (ext := Sample.impl) Sample.disk Sample.name
           Sample.rank_args (Sample.parsed Sample.rank_args) 2 "graph.bin" "pairs").
  repeat split; reflexivity.
Defined.

Lemma equidistant_target_witness :
  Forall (fun c => request c = ByDistance 3)
         (calls (snd (Sample.go Sample.equidistant_args))) /\
  (fst (Sample.go Sample.equidistant_args) = Val EXIT_SUCCESS ->
   length (calls (snd (Sample.go Sample.equidistant_args))) = Z.to_nat 2).
Proof.
  apply (equidistant_target (ext := Sample.impl) Sample.disk Sample.name
           Sample.equidistant_args (Sample.parsed Sample.equidistant_args)
           2 "graph.bin" "pairs" 3).
  - repeat split; reflexivity.
  - reflexivity.
  - reflexivity.
  - reflexivity.
  - reflexivity.
Defined.

Lemma record_count_witness :
  (exists methodology,
     out (snd (Sample.go Sample.rank_args)) =
     Some ("pairs" ++ ".csv",
           header "graph.bin" methodology ++ rows (calls (snd (Sample.go Sample.rank_args))))) /\
  Forall replied (calls (snd (Sample.go Sample.rank_args))) /\
  exists ranks,
    getValues_int (Collaborators := Sample.impl) (Sample.parsed Sample.rank_args) "r" = Val ranks /\
    Z.of_nat (length (calls (snd (Sample.go Sample.rank_args)))) = 2 * Z.of_nat (length ranks).
Proof.
  apply (record_count (ext := Sample.impl) Sample.disk Sample.name
           Sample.rank_args (Sample.parsed Sample.rank_args) 2 "graph.bin" "pairs").
  - repeat split; reflexivity.
  - lia.
  - reflexivity.
Defined.



Lemma rank_column_without_rank_field_witness :
  (exists methodology,
     out (snd (Sample.go Sample.uniform_args)) =
     Some ("pairs" ++ ".csv",
           "# Input graph: " ++ "graph.bin" ++ endl ++
           "# Methodology: " ++ methodology ++ endl ++
           "origin,destination,dijkstra_rank" ++ endl ++
           rows (calls (snd (Sample.go Sample.uniform_args))))) /\
  Forall (fun c => exists od,
              reply c = Some od /\
              row c = Int.show (origin od) ++ "," ++ Int.show (destination od) ++ endl)
         (calls (snd (Sample.go Sample.uniform_args))).
Proof.
  apply (rank_column_without_rank_field (ext := Sample.impl) Sample.disk Sample.name
           Sample.uniform_args (Sample.parsed Sample.uniform_args) 2 "graph.bin" "pairs").
  - repeat split; reflexivity.
  - reflexivity.
Defined.


Lemma default_seed_witness :
  run (ext := Sample.impl) Sample.disk Sample.name Sample.uniform_args =
  catch (generate_with (ext := Sample.impl) Sample.disk
           (default_random_engine (Collaborators := Sample.impl) 19900325)
           (Sample.parsed Sample.uniform_args) 2 "graph.bin" "pairs" ;; ret EXIT_SUCCESS)%proc
        (report Sample.name) start /\
  forall fs' args' clp',
    clp_parse (Collaborators := Sample.impl) args' = Val clp' ->
    isSet (Collaborators := Sample.impl) clp' "s" = false ->
    defaults_when_unset (ext := Sample.impl) clp' ->
    same_options (ext := Sample.impl) (Sample.parsed Sample.uniform_args) clp' ->
    ifstream Sample.disk "graph.bin" = ifstream fs' "graph.bin" ->
    ofstream_good Sample.disk ("pairs" ++ ".csv") = ofstream_good fs' ("pairs" ++ ".csv") ->
    run (ext := Sample.impl) fs' Sample.name args' =
    run (ext := Sample.impl) Sample.disk Sample.name Sample.uniform_args.
Proof.
  apply (default_seed (ext := Sample.impl) Sample.disk Sample.name Sample.uniform_args).
  - repeat split; reflexivity.
  - reflexivity.
  - intros nm d. cbn [isSet getValue_int Sample.impl].
    destruct (Sample.values (Sample.parsed Sample.uniform_args) nm);
      [discriminate | reflexivity].
Defined.

Lemma geometric_target_one_short_witness :
  Forall (fun c => exists rand,
              request c =
              ByDistance (fst (geometric_distribution (Collaborators := Sample.impl)
                                 (success_probability 2) rand)))
         (calls (snd (Sample.go Sample.geometric_args))) /\
  forall k,
    (mean_upto (geometric_pmf (success_probability 2)) k ==
     (inject_Z 2 - 1) *
     (1 - Qpow (1 - 1 / inject_Z 2) k * (1 + inject_Z (Z.of_nat k) / inject_Z 2)))%Q /\
    (mean_upto (geometric_pmf (success_probability 2)) k <= inject_Z 2 - 1)%Q.
Proof.
  apply (geometric_target_one_short (ext := Sample.impl) Sample.disk Sample.name
           Sample.geometric_args (Sample.parsed Sample.geometric_args) 2 "graph.bin" "pairs" 2).
  - repeat split; reflexivity.
  - reflexivity.
  - reflexivity.
  - reflexivity.
  - reflexivity.
  - lia.
Defined.

(** * Failing and idle runs *)

(** ** Logs in which only the last call raised *)

Lemma Forall_removelast {A} (P : A -> Prop) (l : list A) :
  Forall P l -> Forall P (removelast l).
Proof.
  induction 1 as [|x l Hx Hl IH]; simpl; [constructor |].
  destruct l; [constructor | constructor; assumption].
Qed.

Lemma raised_last_nil : raised_last [].
Proof. constructor. Qed.

Lemma raised_last_one c : raised_last [c].
Proof. constructor. Qed.

Lemma raised_last_app a b : Forall replied a -> raised_last b -> raised_last (a ++ b).
Proof.
  intros Ha Hb. unfold raised_last in *. destruct b as [|c b].
  - rewrite app_nil_r. now apply Forall_removelast.
  - rewrite removelast_app by discriminate. apply Forall_app. auto.
Qed.

Lemma raised_last_cons c new : replied c -> raised_last new -> raised_last (c :: new).
Proof. intros Hc Hn. apply (raised_last_app [c] new); [now constructor | exact Hn]. Qed.

Lemma raised_last_split new c :
  raised_last new -> In c new -> reply c = None ->
  exists done, new = (done ++ [c])%list /\ Forall replied done.
Proof.
  intros Hr Hin Hc. unfold raised_last in Hr.
  destruct new as [|x new]; [contradiction |].
  pose proof (@app_removelast_last _ (x :: new) x ltac:(discriminate)) as E.
  assert (Hin' : In c (removelast (x :: new) ++ [last (x :: new) x]))
    by (rewrite <- E; exact Hin).
  apply in_app_or in Hin'. destruct Hin' as [Hin' | [Heq | []]].
  - rewrite Forall_forall in Hr. exfalso. apply (Hr c Hin'). exact Hc.
  - exists (removelast (x :: new)). split; [| exact Hr].
    rewrite <- Heq. exact E.
Qed.

Section Traces.

Context {ext : Collaborators}.

Lemma uniform_pairs_trace n graph : forall gen rand bar p r p',
  uniform_pairs n graph gen rand bar p = (r, p') ->
  exists new,
    grows (fun _ => True) p p' new /\
    (length new <= n)%nat /\ raised_last new /\
    (r = Val tt -> Forall replied new).
Proof.
  induction n as [|n IH]; intros gen rand bar p r p' H; simpl in H.
  - inversion H; subst. exists []. split; [apply grows_refl |]. split; [simpl; lia |].
    split; [apply raised_last_nil | auto].
  - unfold bind, sample in H.
    destruct (invoke Uniform graph gen rand) as [[[od gen'] rand']|f]; simpl in H.
    + unfold incr_bar in H. destruct (bar_incr bar) as [bar' text]. simpl in H.
      apply IH in H. destruct H as (new & Hg & Hlen & Hlast & Hok).
      exists ({| request := Uniform; reply := Some od |} :: new). split; [| split; [| split]].
      * eapply grows_cons; [| | | | exact Hg]; simpl; auto.
      * simpl. lia.
      * apply raised_last_cons; [discriminate | exact Hlast].
      * intros Hr. constructor; [discriminate | auto].
    + inversion H; subst.
      exists [{| request := Uniform; reply := None |}]. split; [| split; [| split]].
      * eapply grows_cons; [| | | | apply grows_refl]; simpl; auto.
        now rewrite out_append_nil.
      * simpl. lia.
      * apply raised_last_one.
      * discriminate.
Qed.

Lemma distance_pairs_trace n isGeo distance graph : forall gen rand bar p r p',
  distance_pairs n isGeo distance graph gen rand bar p = (r, p') ->
  exists new,
    grows (fun _ => True) p p' new /\
    (length new <= n)%nat /\ raised_last new /\
    (r = Val tt -> Forall replied new).
Proof.
  induction n as [|n IH]; intros gen rand bar p r p' H; simpl in H.
  - inversion H; subst. exists []. split; [apply grows_refl |]. split; [simpl; lia |].
    split; [apply raised_last_nil | auto].
  - destruct (if isGeo then geometric_distribution (success_probability distance) rand
              else (distance, rand)) as [actualDistance rand1].
    unfold bind, sample in H.
    destruct (invoke (ByDistance actualDistance) graph gen rand1) as [[[od gen'] rand']|f];
      simpl in H.
    + unfold incr_bar in H. destruct (bar_incr bar) as [bar' text]. simpl in H.
      apply IH in H. destruct H as (new & Hg & Hlen & Hlast & Hok).
      exists ({| request := ByDistance actualDistance; reply := Some od |} :: new).
      split; [| split; [| split]].
      * eapply grows_cons; [| | | | exact Hg]; simpl; auto.
      * simpl. lia.
      * apply raised_last_cons; [discriminate | exact Hlast].
      * intros Hr. constructor; [discriminate | auto].
    + inversion H; subst.
      exists [{| request := ByDistance actualDistance; reply := None |}]. split; [| split; [| split]].
      * eapply grows_cons; [| | | | apply grows_refl]; simpl; auto.
        now rewrite out_append_nil.
      * simpl. lia.
      * apply raised_last_one.
      * discriminate.
Qed.

Lemma rank_pairs_trace n rank graph : forall gen rand bar p r p',
  rank_pairs n rank graph gen rand bar p = (r, p') ->
  exists new,
    grows (fun _ => True) p p' new /\
    (length new <= n)%nat /\ raised_last new /\
    (forall v, r = Val v -> Forall replied new).
Proof.
  induction n as [|n IH]; intros gen rand bar p r p' H; simpl in H.
  - inversion H; subst. exists []. split; [apply grows_refl |]. split; [simpl; lia |].
    split; [apply raised_last_nil | auto].
  - unfold bind, shift_one in H.
    destruct (Int.shl 1 rank) as [k|] eqn:Hk; simpl in H.
    + unfold sample in H.
      destruct (invoke (ByDijkstraRank k) graph gen rand) as [[[od gen'] rand']|f];
        simpl in H.
      * unfold incr_bar in H. destruct (bar_incr bar) as [bar' text]. simpl in H.
        apply IH in H. destruct H as (new & Hg & Hlen & Hlast & Hok).
        exists ({| request := ByDijkstraRank k; reply := Some od |} :: new). split; [| split; [| split]].
        -- eapply grows_cons; [| | | | exact Hg]; simpl; auto.
        -- simpl. lia.
        -- apply raised_last_cons; [discriminate | exact Hlast].
        -- intros v Hr. constructor; [discriminate | eauto].
      * inversion H; subst.
        exists [{| request := ByDijkstraRank k; reply := None |}]. split; [| split; [| split]].
        -- eapply grows_cons; [| | | | apply grows_refl]; simpl; auto.
           now rewrite out_append_nil.
        -- simpl. lia.
        -- apply raised_last_one.
        -- discriminate.
    + inversion H; subst. exists []. split; [apply grows_refl |]. split; [simpl; lia |].
      split; [apply raised_last_nil | discriminate].
Qed.

Lemma rank_batches_trace ranks numPairs graph : forall gen rand bar p r p',
  rank_batches ranks numPairs graph gen rand bar p = (r, p') ->
  exists new,
    grows (fun _ => True) p p' new /\
    (length new <= Z.to_nat numPairs * length ranks)%nat /\ raised_last new /\
    (r = Val tt -> Forall replied new).
Proof.
  induction ranks as [|rank ranks IH]; intros gen rand bar p r p' H; simpl in H.
  - inversion H; subst. exists []. split; [apply grows_refl |]. split; [simpl; lia |].
    split; [apply raised_last_nil | auto].
  - unfold bind at 1 in H. simpl in H.
    unfold bind at 1, init_bar in H. destruct (bar_init bar numPairs) as [bar1 text1].
    simpl in H. unfold bind at 1 in H.
    match type of H with
    | context [rank_pairs ?n ?k ?g ?ge ?ra ?ba ?q] =>
        destruct (rank_pairs n k g ge ra ba q) as [[[[gen2 rand2] bar2]|f] p2] eqn:Hin
    end.
    + apply rank_pairs_trace in Hin. destruct Hin as (new1 & Hg1 & Hlen1 & Hlast1 & Hok1).
      unfold bind at 1 in H. simpl in H.
      apply IH in H. destruct H as (new2 & Hg2 & Hlen2 & Hlast2 & Hok2).
      exists (new1 ++ new2)%list. split; [| split; [| split]].
      * eapply grows_app; [exact Hg1 |].
        destruct Hg2 as (Hc2 & Hl2 & Ho2 & HF2). repeat split; auto.
      * rewrite length_app. simpl. lia.
      * apply raised_last_app; eauto.
      * intros Hr. apply Forall_app. eauto.
    + inversion H; subst.
      apply rank_pairs_trace in Hin. destruct Hin as (new1 & Hg1 & Hlen1 & Hlast1 & _).
      exists new1. split; [exact Hg1 |]. split; [simpl; lia |].
      split; [exact Hlast1 | discriminate].
Qed.

End Traces.

(** ** The selected branch, whether or not it runs to its end *)

Section Branches.

Context {ext : Collaborators}.
Variable fs : FileSystem.

Lemma branch_trace clp numPairs graph gen rand bar p r p' :
  branch clp numPairs graph gen rand bar p = (r, p') ->
  exists new,
    cerr p' = cerr p /\
    calls p' = (calls p ++ new)%list /\
    out p' = out_append (out p) (body_text clp new) /\
    (length new <= Z.to_nat numPairs * batches clp)%nat /\
    raised_last new /\
    (r = Val tt -> Forall replied new).
Proof.
  unfold branch, body_text, batches, selected_mode.
  destruct (isSet clp "r"); [| destruct (isSet clp "d")]; intros H.
  - unfold by_rank in H. run_steps H.
    destruct (getValues_int clp "r") as [ranks|f] eqn:Hr.
    + apply rank_batches_trace in H. destruct H as (new & Hg & Hlen & Hlast & Hok).
      pose proof (grows_extends _ p _ _ _ _ Hg eq_refl eq_refl (out_append_append _ _ _))
        as (Hc1 & Hl1 & Ho1 & _).
      exists new. repeat split; auto;
        try (rewrite Ho1; f_equal; unfold columns; now rewrite !append_assoc).
    + apply pair_equal_spec in H. destruct H as [<- <-].
      exists []. cbn [cerr calls out rows]. rewrite app_nil_r, out_append_append.
      repeat split; auto using raised_last_nil; try (simpl; lia); try discriminate;
        try (f_equal; unfold columns; now rewrite !append_assoc, ?append_nil_r).
  - unfold by_distance, init_bar in H.
    destruct (getValue_int clp "d" None) as [distance|f] eqn:Hd.
    + destruct (bar_init bar numPairs) as [bar1 text1].
      assert (Hin : exists q r1 p1,
                 distance_pairs (Z.to_nat numPairs) (isSet clp "geo") distance
                                graph gen rand bar1 q = (r1, p1) /\
                 cerr q = cerr p /\ calls q = calls p /\
                 out q = out_append (out p)
                           (distance_methodology (isSet clp "geo") distance ++ endl ++ columns) /\
                 (r = Val tt -> r1 = Val tt) /\ cerr p' = cerr p1 /\ calls p' = calls p1 /\
                 out p' = out p1).
      { destruct (isSet clp "geo"); run_steps H;
          match type of H with
          | context [distance_pairs ?n ?b ?d ?g ?ge ?ra ?ba ?q] =>
              destruct (distance_pairs n b d g ge ra ba q) as [[[]|f] p1] eqn:Hin;
                inversion H; subst r p'; clear H;
                eexists q, _, p1; (split; [exact Hin |]); cbn [cout cerr out calls];
                repeat split; auto; try discriminate;
                rewrite !out_append_append; f_equal;
                unfold distance_methodology, columns; now rewrite !append_assoc
          end. }
      destruct Hin as (q & r1 & p1 & Hin & Hc & Hl & Ho & Hr & Hc' & Hl' & Ho').
      apply distance_pairs_trace in Hin. destruct Hin as (new & Hg & Hlen & Hlast & Hok).
      pose proof (grows_extends _ p _ _ _ _ Hg Hc Hl Ho) as (Hc1 & Hl1 & Ho1 & _).
      exists new. repeat split; try congruence; auto; try lia;
        try (rewrite Ho', Ho1; f_equal; now rewrite !append_assoc).
    + run_steps H. apply pair_equal_spec in H. destruct H as [<- <-].
      exists []. rewrite app_nil_r, out_append_nil.
      repeat split; auto using raised_last_nil; try (simpl; lia); try discriminate.
  - unfold uniformly, init_bar in H.
    destruct (bar_init bar numPairs) as [bar1 text1]. run_steps H.
    match type of H with
    | context [uniform_pairs ?n ?g ?ge ?ra ?ba ?q] =>
        destruct (uniform_pairs n g ge ra ba q) as [[[]|f] p1] eqn:Hin
    end; apply pair_equal_spec in H; destruct H as [<- <-];
      apply uniform_pairs_trace in Hin; destruct Hin as (new & Hg & Hlen & Hlast & Hok);
      pose proof (grows_extends _ p _ _ _ _ Hg eq_refl eq_refl (out_append_append _ _ _))
        as (Hc & Hl & Ho & _);
      exists new; cbn [cerr calls out]; repeat split; auto; try lia; try discriminate.
Qed.

(** A configured run that loads its graph and opens its output file enters
    the selected branch from a process that holds the two lines begun. *)
Lemma run_enters_branch argv0 args clp n i o seed bytes graph :
  configured args clp n i o ->
  loaded fs clp i seed bytes graph ->
  ofstream_good fs (o ++ ".csv") = true ->
  exists p0 rb pb,
    branch clp n (if isSet clp "len" then use_lengths graph else graph)
           (gen_new graph (default_random_engine seed)) (default_random_engine seed)
           (setPercentageOutputInterval bar_new 25) p0 = (rb, pb) /\
    cerr p0 = EmptyString /\ calls p0 = [] /\
    out p0 = Some (o ++ ".csv", "# Input graph: " ++ i ++ endl ++ "# Methodology: ") /\
    out (snd (run fs argv0 args)) = out pb /\
    calls (snd (run fs argv0 args)) = calls pb /\
    cerr pb = EmptyString /\
    match rb with
    | Val _ =>
        fst (run fs argv0 args) = Val EXIT_SUCCESS /\
        cerr (snd (run fs argv0 args)) = EmptyString
    | Fail (invalid_argument what) =>
        fst (run fs argv0 args) = Val EXIT_FAILURE /\
        cerr (snd (run fs argv0 args)) = error_text argv0 what
    | Fail f =>
        fst (run fs argv0 args) = Fail f /\
        cerr (snd (run fs argv0 args)) = EmptyString
    end.
Proof.
  intros Hconf (Hs & Hin & Hg) Hout.
  destruct (run fs argv0 args) as [r p] eqn:Hrun. cbn [fst snd].
  destruct (run_configured fs _ _ _ _ _ _ _ _ Hconf Hrun)
    as (rb & pb & Hb & Ho & Hl & Hc & Hr).
  unfold generate, generate_with, open_in, open_out in Hb.
  rewrite Hs in Hb. run_steps Hb. rewrite Hin in Hb. run_steps Hb.
  rewrite Hg in Hb. run_steps Hb. rewrite Hout in Hb. run_steps Hb.
  eexists _, rb, pb. split; [exact Hb |]. cbn [cerr calls out start].
  repeat split; auto.
  rewrite !out_append_append. cbn [out_append append]. now rewrite !append_assoc.
Qed.

End Branches.

(** ** Ends of [main] outside the branches *)

Section Ends.

Context {ext : Collaborators}.
Variable fs : FileSystem.

Lemma help_run_text argv0 args clp :
  clp_parse args = Val clp ->
  isSet clp "help" = true ->
  run fs argv0 args =
  (Val EXIT_SUCCESS, {| cout := usage; cerr := EmptyString; out := None; calls := [] |}).
Proof.
  intros Hp Hh. unfold run. rewrite (main_parsed fs argv0 args clp start Hp), Hh.
  reflexivity.
Qed.

Lemma lookup_escapes argv0 args clp f :
  clp_parse args = Val clp ->
  isSet clp "help" = false ->
  getValue_int clp "n" None = Fail f \/
  (exists n, getValue_int clp "n" None = Val n /\ getValue_string clp "i" = Fail f) \/
  (exists n i, getValue_int clp "n" None = Val n /\ getValue_string clp "i" = Val i /\
               getValue_string clp "o" = Fail f) ->
  run fs argv0 args = (Fail f, start).
Proof.
  intros Hp Hh Hcase. unfold run. rewrite (main_parsed fs argv0 args clp start Hp), Hh.
  destruct Hcase as [Hn | [(n & Hn & Hi) | (n & i & Hn & Hi & Ho)]].
  - unfold bind at 1, lift at 1. rewrite Hn. reflexivity.
  - unfold bind at 1, lift at 1. rewrite Hn.
    unfold bind at 1, lift at 1. rewrite Hi. reflexivity.
  - unfold bind at 1, lift at 1. rewrite Hn.
    unfold bind at 1, lift at 1. rewrite Hi.
    unfold bind at 1, lift at 1. rewrite Ho. reflexivity.
Qed.

(** X1.  Once the command line parses with [-help] set, [main] prints the
    usage text on [std::cout] and returns [EXIT_SUCCESS] without looking up
    any other option, opening any file or calling the sampler, whatever else
    the command line holds. *)
Theorem help_only_prints_usage argv0 args clp :
  clp_parse args = Val clp ->
  isSet clp "help" = true ->
  run fs argv0 args =
  (Val EXIT_SUCCESS, {| cout := usage; cerr := EmptyString; out := None; calls := [] |}).
Proof.
  intros Hp Hh. unfold run. rewrite (main_parsed fs argv0 args clp start Hp), Hh.
  reflexivity.
Qed.

(** X3.  The lookups of [-n], [-i] and [-o] stand ahead of the guarded block:
    when one of them raises, whatever the exception, [main] ends with it
    uncaught, and nothing has been printed, opened or sampled. *)
Theorem lookup_ahead_of_guard_escapes argv0 args clp f :
  clp_parse args = Val clp ->
  isSet clp "help" = false ->
  getValue_int clp "n" None = Fail f \/
  (exists n, getValue_int clp "n" None = Val n /\ getValue_string clp "i" = Fail f) \/
  (exists n i, getValue_int clp "n" None = Val n /\ getValue_string clp "i" = Val i /\
               getValue_string clp "o" = Fail f) ->
  run fs argv0 args = (Fail f, start).
Proof.
  intros Hp Hh Hcase. unfold run. rewrite (main_parsed fs argv0 args clp start Hp), Hh.
  destruct Hcase as [Hn | [(n & Hn & Hi) | (n & i & Hn & Hi & Ho)]].
  - unfold bind at 1, lift at 1. rewrite Hn. reflexivity.
  - unfold bind at 1, lift at 1. rewrite Hn.
    unfold bind at 1, lift at 1. rewrite Hi. reflexivity.
  - unfold bind at 1, lift at 1. rewrite Hn.
    unfold bind at 1, lift at 1. rewrite Hi.
    unfold bind at 1, lift at 1. rewrite Ho. reflexivity.
Qed.

(** X2.  Exit status and error stream go together in every run: [main]
    returns [EXIT_SUCCESS] with [std::cerr] untouched, or [EXIT_FAILURE] with
    exactly the two lines of [printErrorMessage] on [std::cerr], and it
    returns no other value; a run that ends with an uncaught exception has
    left [std::cerr] untouched. *)
Theorem exit_status_matches_cerr argv0 args :
  match fst (run fs argv0 args) with
  | Val status =>
      (status = EXIT_SUCCESS /\ cerr (snd (run fs argv0 args)) = EmptyString) \/
      (status = EXIT_FAILURE /\
       exists what, cerr (snd (run fs argv0 args)) = error_text argv0 what)
  | Fail _ => cerr (snd (run fs argv0 args)) = EmptyString
  end.
Proof.
  destruct (clp_parse args) as [clp|f] eqn:Hp.
  - destruct (isSet clp "help") eqn:Hh.
    { rewrite (help_run_text argv0 args clp Hp Hh). left. auto. }
    destruct (getValue_int clp "n" None) as [n|f] eqn:Hn.
    2:{ rewrite (lookup_escapes argv0 args clp f Hp Hh (or_introl Hn)). reflexivity. }
    destruct (getValue_string clp "i") as [i|f] eqn:Hi.
    2:{ rewrite (lookup_escapes argv0 args clp f Hp Hh (or_intror (or_introl
                   (ex_intro _ n (conj Hn Hi))))). reflexivity. }
    destruct (getValue_string clp "o") as [o|f] eqn:Ho.
    2:{ rewrite (lookup_escapes argv0 args clp f Hp Hh (or_intror (or_intror
                   (ex_intro _ n (ex_intro _ i (conj Hn (conj Hi Ho))))))). reflexivity. }
    assert (Hconf : configured args clp n i o) by (repeat split; assumption).
    destruct (run fs argv0 args) as [r p] eqn:Hrun. cbn [fst snd].
    destruct (run_configured fs _ _ _ _ _ _ _ _ Hconf Hrun)
      as (rb & pb & _ & _ & _ & _ & Hr).
    destruct rb as [u|[what| |]]; destruct Hr as [-> ->]; eauto.
  - destruct f as [what| |].
    + rewrite (run_unparsed fs argv0 args what Hp). cbn [fst snd cerr]. right. eauto.
    + unfold run, main, catch, bind, lift. rewrite Hp. reflexivity.
    + unfold run, main, catch, bind, lift. rewrite Hp. reflexivity.
Qed.

End Ends.

(** ** What every configured run leaves in the file and in the log *)

Section Outcomes.

Context {ext : Collaborators}.
Variable fs : FileSystem.

(** A configured run either never opened the output stream and never called
    the sampler, or sent to the stream the text of its branch and left a
    bounded log with at most one raising call, the last. *)
Lemma run_trace argv0 args clp n i o :
  configured args clp n i o ->
  (out (snd (run fs argv0 args)) = None /\ calls (snd (run fs argv0 args)) = []) \/
  (out (snd (run fs argv0 args)) =
   Some (o ++ ".csv",
         "# Input graph: " ++ i ++ endl ++ "# Methodology: " ++
         body_text clp (calls (snd (run fs argv0 args)))) /\
   (length (calls (snd (run fs argv0 args))) <= Z.to_nat n * batches clp)%nat /\
   raised_last (calls (snd (run fs argv0 args))) /\
   (Forall replied (calls (snd (run fs argv0 args))) \/
    fst (run fs argv0 args) <> Val EXIT_SUCCESS)).
Proof.
  intros Hconf.
  destruct (run_leaves fs argv0 args clp n i o Hconf) as (_ & Hout & Hnone).
  destruct Hout as [Hno | (text & Hsome & Hgood)]; [left; auto | right].
  destruct (run fs argv0 args) as [r p] eqn:Hrun. cbn [fst snd] in *.
  destruct (run_configured fs _ _ _ _ _ _ _ _ Hconf Hrun)
    as (rb & pb & Hb & Ho & Hl & Hc & Hr).
  destruct (generate_spec fs _ _ _ _ start _ _ eq_refl Hb)
    as [_ [(f & Hs & _ & Hout & _) | [(seed & Hs & Hout & _) | (seed & Hs & Hw)]]];
    try congruence.
  destruct Hw as (bytes & graph & _ & _ & Hin & Hg & _).
  destruct (run_enters_branch fs argv0 args clp n i o seed bytes graph Hconf
              (conj Hs (conj Hin Hg)) Hgood)
    as (p0 & rb' & pb' & Hbr & _ & Hl0 & Ho0 & Ho' & Hl' & _ & Hr').
  rewrite Hrun in Ho', Hl', Hr'. cbn [fst snd] in Ho', Hl', Hr'.
  destruct (branch_trace _ _ _ _ _ _ _ _ _ Hbr) as (new & _ & Hnew & Hout' & Hlen & Hlast & Hok).
  rewrite Hl0 in Hnew. cbn [app] in Hnew. rewrite Hl', Hnew, Ho', Hout', Ho0.
  cbn [out_append]. split; [| split; [exact Hlen | split; [exact Hlast |]]].
  - now rewrite !append_assoc.
  - destruct rb' as [[]|[what| |]].
    + left. auto.
    + right. destruct Hr' as [-> _]. discriminate.
    + right. destruct Hr' as [-> _]. discriminate.
    + right. destruct Hr' as [-> _]. discriminate.
Qed.

(** X5.  Whenever [main] returns in a configured run ([EXIT_SUCCESS], or
    [EXIT_FAILURE] after a caught [std::invalid_argument]), an output file it
    opened holds the two [#] lines, then what its branch wrote: the
    methodology, the column line and one row for each sampler call that
    returned, in call order, and nothing else (nothing after
    [# Methodology: ] when the [-d] lookup raised).  A run that is reported
    as failed midway leaves whole rows only. *)
Theorem file_holds_rows_of_returned_calls argv0 args clp n i o status :
  configured args clp n i o ->
  fst (run fs argv0 args) = Val status ->
  out (snd (run fs argv0 args)) = None \/
  out (snd (run fs argv0 args)) =
  Some (o ++ ".csv",
        "# Input graph: " ++ i ++ endl ++ "# Methodology: " ++
        body_text clp (calls (snd (run fs argv0 args)))).
Proof.
  intros Hconf _. destruct (run_trace argv0 args clp n i o Hconf) as [[H _] | [H _]]; auto.
Qed.

(** X6.  No configured run, however it ends, calls the sampler more than
    [numPairs] times in the uniform and distance branches, or more than
    [numPairs] times the number of listed ranks in the Dijkstra-rank
    branch. *)
Theorem sampler_calls_bounded argv0 args clp n i o :
  configured args clp n i o ->
  (length (calls (snd (run fs argv0 args))) <= Z.to_nat n * batches clp)%nat.
Proof.
  intros Hconf.
  destruct (run_trace argv0 args clp n i o Hconf) as [[_ H] | (_ & H & _)]; [| exact H].
  rewrite H. simpl. lia.
Qed.

(** X7.  A sampler call that raises ends the run: it is the last call of the
    log, every call before it returned, and [main] does not return
    [EXIT_SUCCESS]. *)
Theorem raising_call_is_last argv0 args clp n i o c :
  configured args clp n i o ->
  In c (calls (snd (run fs argv0 args))) ->
  reply c = None ->
  (exists done,
     calls (snd (run fs argv0 args)) = (done ++ [c])%list /\ Forall replied done) /\
  fst (run fs argv0 args) <> Val EXIT_SUCCESS.
Proof.
  intros Hconf Hin Hc.
  destruct (run_trace argv0 args clp n i o Hconf) as [[_ H] | (_ & _ & Hlast & Hok)].
  - rewrite H in Hin. contradiction.
  - split; [apply raised_last_split; assumption |].
    destruct Hok as [Hall | Hbad]; [| exact Hbad].
    rewrite Forall_forall in Hall. exfalso. apply (Hall c Hin). exact Hc.
Qed.

End Outcomes.

(** ** Lookups of the branches and idle branches *)

Section Idle.

Context {ext : Collaborators}.
Variable fs : FileSystem.

Lemma branch_lookup_raises clp numPairs graph gen rand bar p f :
  (isSet clp "r" = true /\ getValues_int clp "r" = Fail f) \/
  (isSet clp "r" = false /\ isSet clp "d" = true /\ getValue_int clp "d" None = Fail f) ->
  exists p',
    branch clp numPairs graph gen rand bar p = (Fail f, p') /\
    calls p' = calls p /\
    out p' = out_append (out p)
               (if isSet clp "r" then "Dijkstra rank" ++ endl ++ columns else EmptyString).
Proof.
  unfold branch. intros [(Hr & Hl) | (Hr & Hd & Hl)]; rewrite Hr.
  - unfold by_rank, bind, out_put, cout_put, lift. cbn [cout cerr out calls]. rewrite Hl.
    eexists. split; [reflexivity |]. cbn [calls out]. split; [reflexivity |].
    now rewrite out_append_append.
  - rewrite Hd. unfold by_distance, bind, lift. rewrite Hl.
    eexists. split; [reflexivity |]. split; [reflexivity |]. now rewrite out_append_nil.
Qed.

(** X4.  The lookups of [-r] and [-d] stand after the output file is opened.
    When one raises [std::invalid_argument], [main] reports it and returns
    [EXIT_FAILURE] with no sampler call made, but the output file exists: it
    holds the two [#] lines, cut after [# Methodology: ] for [-d], and the
    methodology and column lines as well for [-r]. *)
Theorem branch_lookup_failure_leaves_file argv0 args clp n i o seed bytes graph what :
  configured args clp n i o ->
  loaded fs clp i seed bytes graph ->
  ofstream_good fs (o ++ ".csv") = true ->
  (isSet clp "r" = true /\ getValues_int clp "r" = Fail (invalid_argument what)) \/
  (isSet clp "r" = false /\ isSet clp "d" = true /\
   getValue_int clp "d" None = Fail (invalid_argument what)) ->
  fst (run fs argv0 args) = Val EXIT_FAILURE /\
  cerr (snd (run fs argv0 args)) = error_text argv0 what /\
  calls (snd (run fs argv0 args)) = [] /\
  out (snd (run fs argv0 args)) =
  Some (o ++ ".csv",
        "# Input graph: " ++ i ++ endl ++ "# Methodology: " ++
        (if isSet clp "r" then "Dijkstra rank" ++ endl ++ columns else EmptyString)).
Proof.
  intros Hconf Hload Hgood Hcase.
  destruct (run_enters_branch fs argv0 args clp n i o seed bytes graph Hconf Hload Hgood)
    as (p0 & rb & pb & Hbr & _ & Hl0 & Ho0 & Ho & Hl & _ & Hr).
  destruct (branch_lookup_raises clp n
              (if isSet clp "len" then use_lengths graph else graph)
              (gen_new graph (default_random_engine seed)) (default_random_engine seed)
              (setPercentageOutputInterval bar_new 25) p0 _ Hcase)
    as (p' & Hbr' & Hl' & Ho').
  rewrite Hbr in Hbr'. apply pair_equal_spec in Hbr'. destruct Hbr' as [-> ->].
  destruct Hr as [Hr Hc]. repeat split; auto; try congruence.
  rewrite Ho, Ho', Ho0. cbn [out_append]. now rewrite !append_assoc.
Qed.

Lemma rank_batches_idle numPairs graph ranks : forall gen rand bar p,
  Z.to_nat numPairs = 0%nat ->
  exists p', rank_batches ranks numPairs graph gen rand bar p = (Val tt, p').
Proof.
  induction ranks as [|rank ranks IH]; intros gen rand bar p Hn.
  - eexists. reflexivity.
  - cbn [rank_batches]. unfold bind at 1, cout_put at 1.
    unfold bind at 1, init_bar. destruct (bar_init bar numPairs) as [bar1 text1].
    unfold bind at 1, cout_put at 1, ret at 1. unfold bind at 1. rewrite Hn.
    cbn [rank_pairs]. unfold ret at 1. unfold bind at 1, cout_put at 1.
    apply IH. exact Hn.
Qed.

(** The lookups of the selected branch return. *)
Lemma branch_idle clp numPairs graph gen rand bar p :
  match selected_mode clp with
  | RankTargeted => exists ranks, getValues_int clp "r" = Val ranks
  | DistanceTargeted => exists distance, getValue_int clp "d" None = Val distance
  | UniformMode => True
  end ->
  (Z.to_nat numPairs * batches clp = 0)%nat ->
  exists p', branch clp numPairs graph gen rand bar p = (Val tt, p').
Proof.
  unfold branch, batches, selected_mode.
  destruct (isSet clp "r"); [| destruct (isSet clp "d")].
  - intros (ranks & Hr) Hz. rewrite Hr in Hz.
    unfold by_rank, bind, out_put, cout_put, lift. rewrite Hr.
    destruct ranks as [|rank ranks]; [eexists; reflexivity |].
    apply rank_batches_idle. simpl in Hz. lia.
  - intros (distance & Hd) Hz. assert (Hn : Z.to_nat numPairs = 0%nat) by lia.
    unfold by_distance, init_bar. unfold bind at 1, lift at 1. rewrite Hd.
    destruct (bar_init bar numPairs) as [bar1 text1]. rewrite Hn.
    destruct (isSet clp "geo"); eexists; reflexivity.
  - intros _ Hz. assert (Hn : Z.to_nat numPairs = 0%nat) by lia.
    unfold uniformly, init_bar.
    destruct (bar_init bar numPairs) as [bar1 text1]. rewrite Hn.
    eexists. reflexivity.
Qed.

(** X8.  A run with nothing to generate ([numPairs <= 0], or [-r] with an
    empty list) whose files open and whose lookups return makes no sampler
    call, writes the two [#] lines, the methodology and the column line only,
    and returns [EXIT_SUCCESS]; with [numPairs <= 0] this holds for any
    listed rank, since [1 << rank] is then never evaluated. *)
Theorem nothing_to_generate argv0 args clp n i o seed bytes graph :
  configured args clp n i o ->
  loaded fs clp i seed bytes graph ->
  ofstream_good fs (o ++ ".csv") = true ->
  match selected_mode clp with
  | RankTargeted => exists ranks, getValues_int clp "r" = Val ranks
  | DistanceTargeted => exists distance, getValue_int clp "d" None = Val distance
  | UniformMode => True
  end ->
  (Z.to_nat n * batches clp = 0)%nat ->
  fst (run fs argv0 args) = Val EXIT_SUCCESS /\
  cerr (snd (run fs argv0 args)) = EmptyString /\
  calls (snd (run fs argv0 args)) = [] /\
  out (snd (run fs argv0 args)) =
  Some (o ++ ".csv", "# Input graph: " ++ i ++ endl ++ "# Methodology: " ++ body_text clp []).
Proof.
  intros Hconf Hload Hgood Hlook Hz.
  destruct (run_enters_branch fs argv0 args clp n i o seed bytes graph Hconf Hload Hgood)
    as (p0 & rb & pb & Hbr & _ & Hl0 & Ho0 & Ho & Hl & _ & Hr).
  destruct (branch_idle clp n
              (if isSet clp "len" then use_lengths graph else graph)
              (gen_new graph (default_random_engine seed)) (default_random_engine seed)
              (setPercentageOutputInterval bar_new 25) p0 Hlook Hz) as (p' & Hbr').
  pose proof Hbr as Hbr0.
  rewrite Hbr' in Hbr0. apply pair_equal_spec in Hbr0. destruct Hbr0 as [<- <-].
  destruct (branch_trace _ _ _ _ _ _ _ _ _ Hbr) as (new & _ & Hnew & Hout & Hlen & _).
  assert (new = []) as -> by (destruct new; [reflexivity | simpl in Hlen; lia]).
  destruct Hr as [Hr Hc]. rewrite Hl, Hnew, Hl0, Ho, Hout, Ho0. cbn [out_append app].
  repeat split; auto. now rewrite !append_assoc.
Qed.

End Idle.

(** ** Runs that cannot fail *)

Section Progress.

Context {ext : Collaborators}.
Variable fs : FileSystem.

Hypothesis sampler_total : sampler_returns.








End Progress.

(** ** Options the selected branch does not use *)

Section Unused.

Context {ext : Collaborators}.
Variable fs : FileSystem.

Lemma generate_same_used clp1 clp2 n i o :
  same_used_options clp1 clp2 ->
  generate fs clp1 n i o = generate fs clp2 n i o.
Proof.
  intros (Hset & _ & _ & _ & Hs & Hmode).
  pose proof (Hset "len" ltac:(simpl; tauto)) as Hlen.
  pose proof (Hset "r" ltac:(simpl; tauto)) as Hr.
  unfold generate, generate_with. rewrite Hs, Hlen.
  destruct (isSet clp1 "r") eqn:Hr1; rewrite <- Hr.
  - assert (E : by_rank clp1 = by_rank clp2)
      by (unfold by_rank; rewrite Hlen, Hmode; reflexivity).
    rewrite E. reflexivity.
  - destruct Hmode as [Hd Hmode]. rewrite <- Hd.
    destruct (isSet clp1 "d") eqn:Hd1; [| reflexivity].
    destruct Hmode as [Hdist Hgeo].
    assert (E : by_distance clp1 = by_distance clp2)
      by (unfold by_distance; rewrite Hlen, Hdist, Hgeo; reflexivity).
    rewrite E. reflexivity.
Qed.

(** X10.  The run depends only on the options its branch reads: two command
    lines that agree on [-help], [-len], [-r], the count, the paths and the
    seed, and on the lookups of the selected branch alone, end alike.  Under
    [-r] the options [-d] and [-geo] are ignored, well-formed or not, and
    without [-d] so is [-geo]. *)
Theorem unused_options_are_ignored argv0 args1 args2 clp1 clp2 :
  clp_parse args1 = Val clp1 ->
  clp_parse args2 = Val clp2 ->
  same_used_options clp1 clp2 ->
  run fs argv0 args1 = run fs argv0 args2.
Proof.
  intros Hp1 Hp2 Hsame. pose proof Hsame as (Hset & Hn & Hi & Ho & _).
  unfold run. rewrite (main_parsed fs _ _ _ _ Hp1), (main_parsed fs _ _ _ _ Hp2).
  rewrite (Hset "help") by (simpl; tauto).
  destruct (isSet clp2 "help"); [reflexivity |].
  rewrite Hn, Hi, Ho.
  destruct (getValue_int clp2 "n" None) as [n|f]; [| reflexivity].
  destruct (getValue_string clp2 "i") as [i|f]; [| reflexivity].
  destruct (getValue_string clp2 "o") as [o|f]; [| reflexivity].
  cbv beta iota delta [bind lift].
  rewrite (generate_same_used clp1 clp2 n i o Hsame). reflexivity.
Qed.

End Unused.

(** ** Lengths as cost function *)

Section Lengths.

Context {ext : Collaborators}.

(** The reading side of [graph.travelTime(e)], with the laws of a store. *)
Variable travelTime : Graph -> Z -> Z.

Hypothesis travelTime_set_same :
  forall g e v, travelTime (graph_set_travelTime g e v) e = v.
Hypothesis travelTime_set_other :
  forall g e e' v, e' <> e -> travelTime (graph_set_travelTime g e v) e' = travelTime g e'.
Hypothesis length_set :
  forall g e v e', graph_length (graph_set_travelTime g e v) e' = graph_length g e'.

Lemma copy_lengths_over l : forall g,
  let g' := fold_left (fun g e => graph_set_travelTime g e (graph_length g e)) l g in
  (forall e, graph_length g' e = graph_length g e) /\
  (forall e, In e l -> travelTime g' e = graph_length g e) /\
  (forall e, ~ In e l -> travelTime g' e = travelTime g e).
Proof.
  induction l as [|a l IH]; intros g; cbn [fold_left].
  - repeat split; auto. intros e [].
  - destruct (IH (graph_set_travelTime g a (graph_length g a))) as (Hlen & Hin & Hout).
    cbv zeta in *. split; [| split].
    + intros e. rewrite Hlen. apply length_set.
    + intros e He. destruct (in_dec Z.eq_dec e l) as [Hl | Hl].
      * rewrite (Hin e Hl). apply length_set.
      * destruct He as [<- | He]; [| contradiction].
        rewrite (Hout a Hl). apply travelTime_set_same.
    + intros e He. rewrite Hout by (intros Hl; apply He; right; exact Hl).
      apply travelTime_set_other. intros ->. apply He. left. reflexivity.
Qed.

(** X11.  The loop run under [-len] makes the travel time of every edge of
    the graph equal to its length, leaves every length as it was, and leaves
    the travel time of anything that is not an edge of the graph alone
    (given a [travelTime] accessor that obeys the laws of a store). *)
Theorem use_lengths_copies_lengths g :
  (forall e, In e (graph_edges g) -> travelTime (use_lengths g) e = graph_length g e) /\
  (forall e, graph_length (use_lengths g) e = graph_length g e) /\
  (forall e, ~ In e (graph_edges g) -> travelTime (use_lengths g) e = travelTime g e).
Proof.
  unfold use_lengths. destruct (copy_lengths_over (graph_edges g) g) as (Hlen & Hin & Hout).
  auto.
Qed.

End Lengths.

(** ** Concrete runs of the weighted implementation *)

Lemma help_only_prints_usage_witness :
  Weighted.go Weighted.help_args =
  (Val EXIT_SUCCESS, {| cout := usage; cerr := EmptyString; out := None; calls := [] |}).
Proof.
  apply (help_only_prints_usage (ext := Weighted.impl) Sample.disk Sample.name
           Weighted.help_args (Sample.parsed Weighted.help_args)).
  - reflexivity.
  - reflexivity.
Defined.

Lemma lookup_ahead_of_guard_escapes_witness :
  Weighted.go Weighted.garbled_count_args =
  (Fail (invalid_argument "'many' is not an integer"), start).
Proof.
  apply (lookup_ahead_of_guard_escapes (ext := Weighted.impl) Sample.disk Sample.name
           Weighted.garbled_count_args (Sample.parsed Weighted.garbled_count_args)).
  - reflexivity.
  - reflexivity.
  - left. reflexivity.
Defined.

Lemma branch_lookup_failure_leaves_file_witness :
  fst (Weighted.go Weighted.garbled_ranks_args) = Val EXIT_FAILURE /\
  cerr (snd (Weighted.go Weighted.garbled_ranks_args)) =
  error_text Sample.name "'two' is not an integer" /\
  calls (snd (Weighted.go Weighted.garbled_ranks_args)) = [] /\
  out (snd (Weighted.go Weighted.garbled_ranks_args)) =
  Some ("pairs" ++ ".csv",
        "# Input graph: " ++ "graph.bin" ++ endl ++ "# Methodology: " ++
        "Dijkstra rank" ++ endl ++ columns).
Proof.
  apply (branch_lookup_failure_leaves_file (ext := Weighted.impl) Sample.disk Sample.name
           Weighted.garbled_ranks_args (Sample.parsed Weighted.garbled_ranks_args)
           2 "graph.bin" "pairs" 19900325 "bytes" Weighted.sample_graph
           "'two' is not an integer").
  - repeat split; reflexivity.
  - repeat split; reflexivity.
  - reflexivity.
  - left. split; reflexivity.
Defined.

Lemma file_holds_rows_of_returned_calls_witness :
  out (snd (Weighted.go Weighted.failing_rank_args)) = None \/
  out (snd (Weighted.go Weighted.failing_rank_args)) =
  Some ("pairs" ++ ".csv",
        "# Input graph: " ++ "graph.bin" ++ endl ++ "# Methodology: " ++
        body_text (ext := Weighted.impl) (Sample.parsed Weighted.failing_rank_args)
                  (calls (snd (Weighted.go Weighted.failing_rank_args)))).
Proof.
  apply (file_holds_rows_of_returned_calls (ext := Weighted.impl) Sample.disk Sample.name
           Weighted.failing_rank_args (Sample.parsed Weighted.failing_rank_args) 2
           "graph.bin" "pairs" EXIT_FAILURE).
  - repeat split; reflexivity.
  - reflexivity.
Defined.

Lemma sampler_calls_bounded_witness :
  (length (calls (snd (Weighted.go Weighted.failing_rank_args))) <=
   Z.to_nat 2 * batches (ext := Weighted.impl) (Sample.parsed Weighted.failing_rank_args))%nat.
Proof.
  apply (sampler_calls_bounded (ext := Weighted.impl) Sample.disk Sample.name
           Weighted.failing_rank_args (Sample.parsed Weighted.failing_rank_args)
           2 "graph.bin" "pairs").
  repeat split; reflexivity.
Defined.

Lemma raising_call_is_last_witness :
  (exists done,
     calls (snd (Weighted.go Weighted.failing_rank_args)) =
     (done ++ [{| request := ByDijkstraRank 4; reply := None |}])%list /\
     Forall replied done) /\
  fst (Weighted.go Weighted.failing_rank_args) <> Val EXIT_SUCCESS.
Proof.
  apply (raising_call_is_last (ext := Weighted.impl) Sample.disk Sample.name
           Weighted.failing_rank_args (Sample.parsed Weighted.failing_rank_args)
           2 "graph.bin" "pairs").
  - repeat split; reflexivity.
  - vm_compute. auto.
  - reflexivity.
Defined.

Lemma nothing_to_generate_witness :
  fst (Weighted.go Weighted.idle_args) = Val EXIT_SUCCESS /\
  cerr (snd (Weighted.go Weighted.idle_args)) = EmptyString /\
  calls (snd (Weighted.go Weighted.idle_args)) = [] /\
  out (snd (Weighted.go Weighted.idle_args)) =
  Some ("pairs" ++ ".csv",
        "# Input graph: " ++ "graph.bin" ++ endl ++ "# Methodology: " ++
        body_text (ext := Weighted.impl) (Sample.parsed Weighted.idle_args) []).
Proof.
  apply (nothing_to_generate (ext := Weighted.impl) Sample.disk Sample.name
           Weighted.idle_args (Sample.parsed Weighted.idle_args)
           0 "graph.bin" "pairs" 19900325 "bytes" Weighted.sample_graph).
  - repeat split; reflexivity.
  - repeat split; reflexivity.
  - reflexivity.
  - exists [40]. reflexivity.
  - reflexivity.
Defined.


Lemma unused_options_are_ignored_witness :
  Weighted.go Weighted.rank_with_distance_args = Weighted.go Weighted.rank_only_args.
Proof.
  apply (unused_options_are_ignored (ext := Weighted.impl) Sample.disk Sample.name
           Weighted.rank_with_distance_args Weighted.rank_only_args
           (Sample.parsed Weighted.rank_with_distance_args)
           (Sample.parsed Weighted.rank_only_args)).
  - reflexivity.
  - reflexivity.
  - split.
    + intros nm [<- | [<- | [<- | []]]]; reflexivity.
    + repeat split; reflexivity.
Defined.

Lemma use_lengths_copies_lengths_witness :
  (forall e, In e [0; 1; 2] ->
             Weighted.travel_time_of (use_lengths (ext := Weighted.impl) Weighted.sample_graph) e =
             10 * (e + 1)) /\
  (forall e, Weighted.length_of (use_lengths (ext := Weighted.impl) Weighted.sample_graph) e =
             10 * (e + 1)) /\
  (forall e, ~ In e [0; 1; 2] ->
             Weighted.travel_time_of (use_lengths (ext := Weighted.impl) Weighted.sample_graph) e =
             7 - e).
Proof.
  refine (use_lengths_copies_lengths (ext := Weighted.impl) Weighted.travel_time_of
            _ _ _ Weighted.sample_graph).
  - intros g e v. simpl. rewrite Z.eqb_refl. reflexivity.
  - intros g e e' v Hne. simpl. destruct (Z.eqb_spec e' e); [contradiction | reflexivity].
  - intros g e v e'. reflexivity.
Defined.
